(** * The AIIF conformance checker ([tools/validate-aiif.py])

    A shallow embedding of the validator: the values that [json.load]
    produces, the Python builtins the rules rely on, the [Validator] class
    with its eleven rules, [print_report] and the exit status of [main],
    followed by the properties of the specification.

    Conventions.
    - A Python [str] is a Rocq [string]; a character is an [ascii], that is a
      code point below 256.
    - A JSON number is an integer ([JInt]); literals with a fraction or an
      exponent are outside the model.  No rule looks at the value of a
      number except through [==] in the duplicate-parameter key.
    - A Python [dict] with string keys is an association list in which the
      first binding of a key is the binding of the dict.  The list stands
      for the dict that [json.load] returned, not for the JSON text.
    - [self.doc], [self.checklist] and [self.check_defs] are written once by
      [__init__]; [self.results] is the only attribute written afterwards
      and is the state of the monad [M]. *)

From Stdlib Require Import ZArith String Ascii List Bool Lia DecimalString.
From stdpp Require Import base gmap strings list sorting.

(** ** Values produced by [json.load] *)

#[warnings="-register-all"]
Inductive json : Type :=
| JNull
| JBool (b : bool)
| JInt (n : Z)
| JStr (s : string)
| JList (items : list json)
| JObj (fields : list (string * json)).

Abbreviation dict := (list (string * json)).

(** ** Exceptions and the result of a computation that may raise *)

Inductive exn : Type := TypeError | AttributeError.

Inductive result (A : Type) : Type :=
| Ok (a : A)
| Raise (e : exn).

Arguments Ok {A} a.
Arguments Raise {A} e.

Definition rbind {A B} (r : result A) (k : A -> result B) : result B :=
  match r with
  | Ok a => k a
  | Raise e => Raise e
  end.

(** A [for] loop whose body may raise: the loop stops at the first raise. *)
Fixpoint foldM {S A} (body : S -> A -> result S) (l : list A) (s : S) : result S :=
  match l with
  | [] => Ok s
  | x :: l' => rbind (body s x) (foldM body l')
  end.

Module Py.

(** *** [isinstance] *)

Definition is_str (v : json) : bool :=
  match v with JStr _ => true | _ => false end.
Definition is_list (v : json) : bool :=
  match v with JList _ => true | _ => false end.
Definition is_dict (v : json) : bool :=
  match v with JObj _ => true | _ => false end.

(** *** Dictionaries *)

(** [d[k]] when [k in d]. *)
Fixpoint lookup (k : string) (d : dict) : option json :=
  match d with
  | [] => None
  | (k', v) :: d' => if String.eqb k k' then Some v else lookup k d'
  end.

(** [k in d] *)
Definition contains (k : string) (d : dict) : bool :=
  match lookup k d with Some _ => true | None => false end.

(** [d.get(k, dflt)] *)
Definition get_or (k : string) (dflt : json) (d : dict) : json :=
  match lookup k d with Some v => v | None => dflt end.

(** [d.get(k)] *)
Definition get (k : string) (d : dict) : json := get_or k JNull d.

(** The keys of a dict, each once, in insertion order. *)
Fixpoint keys_from (seen : list string) (d : dict) : list string :=
  match d with
  | [] => []
  | (k, _) :: d' =>
      if existsb (String.eqb k) seen then keys_from seen d'
      else k :: keys_from (k :: seen) d'
  end.
Definition keys (d : dict) : list string := keys_from [] d.

(** *** Iteration ([for x in v]) *)

Fixpoint chars (s : string) : list string :=
  match s with
  | EmptyString => []
  | String c s' => String c EmptyString :: chars s'
  end.

Definition iter (v : json) : result (list json) :=
  match v with
  | JList l => Ok l
  | JStr s => Ok (map JStr (chars s))
  | JObj d => Ok (map JStr (keys d))
  | JNull | JBool _ | JInt _ => Raise TypeError
  end.

(** *** [str.strip()] *)

(** [str.isspace] on the code points below 256. *)
Definition is_space (c : ascii) : bool :=
  let n := nat_of_ascii c in
  ((9 <=? n) && (n <=? 13)) || ((28 <=? n) && (n <=? 32))
  || (n =? 133) || (n =? 160).

Fixpoint lstrip (s : string) : string :=
  match s with
  | EmptyString => EmptyString
  | String c s' => if is_space c then lstrip s' else s
  end.

Fixpoint rstrip (s : string) : string :=
  match s with
  | EmptyString => EmptyString
  | String c s' =>
      match rstrip s' with
      | EmptyString => if is_space c then EmptyString else String c EmptyString
      | r => String c r
      end
  end.

Definition strip (s : string) : string := rstrip (lstrip s).

Definition is_empty (s : string) : bool :=
  match s with EmptyString => true | _ => false end.

(** *** Hashing and equality, as used by [x in some_set] *)

(** [hash(v)] raises for lists and dicts. *)
Definition hash (v : json) : result unit :=
  match v with
  | JList _ | JObj _ => Raise TypeError
  | _ => Ok tt
  end.

(** [a == b] on hashable values ([True == 1] and [False == 0]). *)
Definition eqb (a b : json) : bool :=
  match a, b with
  | JNull, JNull => true
  | JBool x, JBool y => Bool.eqb x y
  | JInt x, JInt y => (x =? y)%Z
  | JBool x, JInt y | JInt y, JBool x => ((if x then 1 else 0) =? y)%Z
  | JStr x, JStr y => String.eqb x y
  | _, _ => false
  end.

(** [s in S] for a set [S] of strings: [s] is hashed, then compared. *)
Definition in_str_set (v : json) (S : list string) : result bool :=
  rbind (hash v) (fun _ =>
    Ok (match v with JStr s => existsb (String.eqb s) S | _ => false end)).

(** *** [str()] and [repr()] *)

Definition of_nat (n : nat) : string := NilZero.string_of_uint (Nat.to_uint n).
Definition of_Z (n : Z) : string := NilZero.string_of_int (Z.to_int n).

Definition squote : ascii := ascii_of_nat 39.
Definition dquote : ascii := ascii_of_nat 34.
Definition backslash : ascii := ascii_of_nat 92.

Definition hex_digit (n : nat) : ascii :=
  if n <? 10 then ascii_of_nat (48 + n) else ascii_of_nat (87 + n).

(** [str.isprintable] on the code points from 128 to 255. *)
Definition high_printable (n : nat) : bool := (161 <=? n) && negb (n =? 173).

Definition escape_char (quote c : ascii) : string :=
  let n := nat_of_ascii c in
  if Ascii.eqb c quote || Ascii.eqb c backslash then String backslash (String c EmptyString)
  else if n =? 9 then String backslash "t"
  else if n =? 10 then String backslash "n"
  else if n =? 13 then String backslash "r"
  else if (n <? 32) || (n =? 127) || ((127 <? n) && negb (high_printable n)) then
    String backslash (String "x" (String (hex_digit (n / 16)) (String (hex_digit (n mod 16)) EmptyString)))
  else String c EmptyString.

Fixpoint has_char (c : ascii) (s : string) : bool :=
  match s with
  | EmptyString => false
  | String c' s' => Ascii.eqb c c' || has_char c s'
  end.

Fixpoint escape (quote : ascii) (s : string) : string :=
  match s with
  | EmptyString => EmptyString
  | String c s' => escape_char quote c +:+ escape quote s'
  end.

Definition repr_str (s : string) : string :=
  let quote := if has_char squote s && negb (has_char dquote s) then dquote else squote in
  String quote (escape quote s +:+ String quote EmptyString).

Fixpoint join (sep : string) (l : list string) : string :=
  match l with
  | [] => EmptyString
  | [x] => x
  | x :: l' => x +:+ sep +:+ join sep l'
  end.

Fixpoint repr (v : json) : string :=
  match v with
  | JNull => "None"
  | JBool true => "True"
  | JBool false => "False"
  | JInt n => of_Z n
  | JStr s => repr_str s
  | JList l => "[" +:+ join ", " (map repr l) +:+ "]"
  | JObj d =>
      "{" +:+ join ", "
        ((fix items (seen : list string) (d : dict) : list string :=
            match d with
            | [] => []
            | (k, x) :: d' =>
                if existsb (String.eqb k) seen then items seen d'
                else (repr_str k +:+ ": " +:+ repr x) :: items (k :: seen) d'
            end) [] d) +:+ "}"
  end.

(** [str(v)], which is what an f-string applies to [{v}]. *)
Definition str (v : json) : string :=
  match v with
  | JStr s => s
  | _ => repr v
  end.

(** [repr] of a list of strings and of a pair. *)
Definition repr_strs (l : list string) : string := repr (JList (map JStr l)).
Definition repr_pair (a b : json) : string := "(" +:+ repr a +:+ ", " +:+ repr b +:+ ")".

(** *** [sorted] on strings and on pairs of strings *)

Definition str_le (a b : string) : Prop := String.leb a b = true.
Definition pair_le (a b : string * string) : Prop :=
  match String.compare (fst a) (fst b) with
  | Lt => True
  | Eq => String.leb (snd a) (snd b) = true
  | Gt => False
  end.

#[export] Instance str_le_dec a b : Decision (str_le a b).
Proof. unfold str_le. apply _. Defined.
#[export] Instance pair_le_dec a b : Decision (pair_le a b).
Proof. unfold pair_le. destruct (String.compare (fst a) (fst b)); apply _. Defined.

Definition sorted_strs (l : list string) : list string := merge_sort str_le l.
Definition sorted_pairs (l : list (string * string)) : list (string * string) :=
  merge_sort pair_le l.

End Py.

(** ** Module constants *)

(** The four sets are only tested for membership or enumerated under
    [any]; they are listed in the order of the source. *)
Definition METHODS : list string := ["GET"; "POST"; "PUT"; "PATCH"; "DELETE"]%string.
Definition PARAM_LOCATIONS : list string := ["path"; "query"; "body"]%string.
Definition AUTH_TYPES : list string := ["none"; "api_key"; "bearer"; "basic"; "oauth2"]%string.
Definition CONSTRAINT_FIELDS : list string :=
  ["minimum"; "maximum"; "min_length"; "max_length"; "pattern"; "format"]%string.

Definition str_in (s : string) (S : list string) : bool := existsb (String.eqb s) S.

(** ** [class CheckResult] *)

Record CheckResult : Type := mkCheckResult {
  check_id : string;
  level : json;
  passed : bool;
  message : string
}.

(** ** [class Validator] *)

Record Validator : Type := mkValidator {
  doc : dict;
  checklist : dict;
  check_defs : gmap string dict
}.

(** Methods run over [self.results] and may raise; what was appended
    before a raise stays in [self.results]. *)
Definition M (A : Type) : Type := list CheckResult -> result A * list CheckResult.

Definition ret {A} (a : A) : M A := fun rs => (Ok a, rs).

Definition bind {A B} (m : M A) (k : A -> M B) : M B :=
  fun rs =>
    match m rs with
    | (Ok a, rs') => k a rs'
    | (Raise e, rs') => (Raise e, rs')
    end.

Definition lift {A} (r : result A) : M A := fun rs => (r, rs).

Notation "x <- m ;; k" := (bind m (fun x => k))
  (at level 100, m at next level, right associativity).
Notation "m ;;; k" := (bind m (fun _ => k))
  (at level 100, right associativity).

(** [item.get("id")] inside the loop of [_index_checks]: only a dict has
    [get]. *)
Definition index_step (indexed : gmap string dict) (item : json) : result (gmap string dict) :=
  match item with
  | JObj d =>
      match Py.get "id" d with
      | JStr check_id => Ok (<[check_id := d]> indexed)
      | _ => Ok indexed
      end
  | _ => Raise AttributeError
  end.

Definition _index_checks (checklist : dict) : result (gmap string dict) :=
  rbind (Py.iter (Py.get_or "checks" (JList []) checklist)) (fun checks =>
  foldM index_step checks ∅).

Definition __init__ (doc checklist : dict) : result Validator :=
  rbind (_index_checks checklist) (fun defs => Ok (mkValidator doc checklist defs)).

Definition _emit (self : Validator) (check_id : string) (passed : bool) (message : string) : M unit :=
  fun results =>
    let check_def := default [] (check_defs self !! check_id) in
    let level := Py.get_or "level" (JStr "INFO") check_def in
    (Ok tt, results ++ [mkCheckResult check_id level passed message]).

(** [check_id in self.check_defs] *)
Definition defined (self : Validator) (check_id : string) : bool :=
  match check_defs self !! check_id with Some _ => true | None => false end.

(** [self.doc.get("endpoints", []) if isinstance(self.doc.get("endpoints"), list) else []] *)
Definition endpoints_of (self : Validator) : list json :=
  match Py.get "endpoints" (doc self) with
  | JList l => l
  | _ => []
  end.

Definition is_nil {A} (l : list A) : bool :=
  match l with [] => true | _ => false end.

Definition _check_top_level_required_fields (self : Validator) : M unit :=
  let required := ["aiif_version"; "info"; "endpoints"]%string in
  let missing := List.filter (fun k => negb (Py.contains k (doc self))) required in
  let aiif_version := Py.get "aiif_version" (doc self) in
  let aiif_version_ok :=
    match aiif_version with
    | JStr s => negb (Py.is_empty (Py.strip s))
    | _ => false
    end in
  let ok :=
    is_nil missing && aiif_version_ok
    && Py.is_list (Py.get "endpoints" (doc self))
    && Py.is_dict (Py.get "info" (doc self)) in
  let msg :=
    if ok then "top-level required fields present"%string
    else
      let details :=
        missing ++ (if aiif_version_ok then []
                    else ["aiif_version (must be non-empty string)"%string]) in
      "missing/invalid top-level fields: " +:+ Py.repr_strs details in
  _emit self "impl.top_level.required_fields" ok msg.

(** The four sets of [_check_endpoint_uniqueness]. *)
Record uniq_state : Type := mkUniq {
  names : gset string;
  dup_names : gset string;
  method_paths : gset (string * string);
  dup_method_paths : gset (string * string)
}.

Definition uniqueness_step (st : uniq_state) (ep : json) : uniq_state :=
  match ep with
  | JObj e =>
      let name := Py.get "name" e in
      let method := Py.get "method" e in
      let path := Py.get "path" e in
      let st1 :=
        match name with
        | JStr n =>
            mkUniq ({[n]} ∪ names st)
                   (if bool_decide (n ∈ names st) then {[n]} ∪ dup_names st else dup_names st)
                   (method_paths st) (dup_method_paths st)
        | _ => st
        end in
      match method, path with
      | JStr m, JStr p =>
          let key := (m, p) in
          mkUniq (names st1) (dup_names st1)
                 ({[key]} ∪ method_paths st1)
                 (if bool_decide (key ∈ method_paths st1)
                  then {[key]} ∪ dup_method_paths st1 else dup_method_paths st1)
      | _, _ => st1
      end
  | _ => st
  end.

Definition repr_pairs (l : list (string * string)) : string :=
  "[" +:+ Py.join ", " (map (fun k => Py.repr_pair (JStr (fst k)) (JStr (snd k))) l) +:+ "]".

Definition _check_endpoint_uniqueness (self : Validator) : M unit :=
  let endpoints := endpoints_of self in
  let st := fold_left uniqueness_step endpoints (mkUniq ∅ ∅ ∅ ∅) in
  _emit self "impl.endpoint_name.unique"
    (size (dup_names st) =? 0)
    (if size (dup_names st) =? 0 then "endpoint names are unique"%string
     else "duplicate endpoint names: " +:+ Py.repr_strs (Py.sorted_strs (elements (dup_names st)))) ;;;
  _emit self "impl.method_path.unique"
    (size (dup_method_paths st) =? 0)
    (if size (dup_method_paths st) =? 0 then "(method,path) pairs are unique"%string
     else "duplicate (method,path) pairs: "
          +:+ repr_pairs (Py.sorted_pairs (elements (dup_method_paths st)))).

(** [key in seen] for a pair: the pair is hashed component by component,
    then compared with the members. *)
Definition key_in (key : json * json) (seen : list (json * json)) : result bool :=
  rbind (Py.hash (fst key)) (fun _ =>
  rbind (Py.hash (snd key)) (fun _ =>
  Ok (existsb (fun k => Py.eqb (fst key) (fst k) && Py.eqb (snd key) (snd k)) seen))).

(** The inner loop of [_check_params_uniqueness], over the params of one
    endpoint; the state is [(seen, violations)]. *)
Definition param_unique_step (ep_name : json)
    (st : list (json * json) * list string) (p : json)
    : result (list (json * json) * list string) :=
  match p with
  | JObj pd =>
      let key := (Py.get "name" pd, Py.get "location" pd) in
      rbind (key_in key (fst st)) (fun dup =>
      Ok (key :: fst st,
          if dup then snd st ++ [Py.str ep_name +:+ ":" +:+ Py.repr_pair (fst key) (snd key)]
          else snd st))
  | _ => Ok st
  end.

Definition params_unique_step (violations : list string) (ep : json) : result (list string) :=
  match ep with
  | JObj e =>
      let ep_name := Py.get_or "name" (JStr "<unknown>") e in
      match Py.get_or "params" (JList []) e with
      | JList params =>
          rbind (foldM (param_unique_step ep_name) params ([], violations)) (fun st =>
          Ok (snd st))
      | _ => Ok violations
      end
  | _ => Ok violations
  end.

Definition _check_params_uniqueness (self : Validator) : M unit :=
  let endpoints := endpoints_of self in
  violations <- lift (foldM params_unique_step endpoints []) ;;
  _emit self "impl.params.unique_by_name_location"
    (length violations =? 0)
    (if length violations =? 0 then "params are unique by (name,location)"%string
     else "duplicate params: " +:+ Py.repr_strs violations).

Definition method_step (bad : list string) (ep : json) : list string :=
  match ep with
  | JObj e =>
      let method := Py.get "method" e in
      let name := Py.get_or "name" (JStr "<unknown>") e in
      if negb (Py.is_str method)
         || negb (match method with JStr m => str_in m METHODS | _ => false end)
      then bad ++ [Py.str name +:+ ":" +:+ Py.str method]
      else bad
  | _ => bad
  end.

Definition _check_method_values (self : Validator) : M unit :=
  let endpoints := endpoints_of self in
  let bad := fold_left method_step endpoints [] in
  let check_id := "impl.endpoint.method.allowed"%string in
  if defined self check_id then
    _emit self check_id (length bad =? 0)
      (if length bad =? 0 then "all methods are allowed"%string
       else "invalid methods: " +:+ Py.repr_strs bad)
  else ret tt.

Definition location_step (ep_name : json) (bad : list string) (p : json) : result (list string) :=
  match p with
  | JObj pd =>
      let location := Py.get "location" pd in
      let pname := Py.get_or "name" (JStr "<unknown>") pd in
      rbind (Py.in_str_set location PARAM_LOCATIONS) (fun known =>
      Ok (if negb known
          then bad ++ [Py.str ep_name +:+ ":" +:+ Py.str pname +:+ ":" +:+ Py.str location]
          else bad))
  | _ => Ok bad
  end.

Definition locations_step (bad : list string) (ep : json) : result (list string) :=
  match ep with
  | JObj e =>
      let ep_name := Py.get_or "name" (JStr "<unknown>") e in
      match Py.get_or "params" (JList []) e with
      | JList params => foldM (location_step ep_name) params bad
      | _ => Ok bad
      end
  | _ => Ok bad
  end.

Definition _check_param_locations (self : Validator) : M unit :=
  let endpoints := endpoints_of self in
  bad <- lift (foldM locations_step endpoints []) ;;
  let check_id := "impl.params.location.allowed"%string in
  if defined self check_id then
    _emit self check_id (length bad =? 0)
      (if length bad =? 0 then "all parameter locations are valid"%string
       else "invalid parameter locations: " +:+ Py.repr_strs bad)
  else ret tt.

Definition _check_auth_object (self : Validator) : M unit :=
  let auth := Py.get "auth" (doc self) in
  match auth with
  | JNull => ret tt
  | JObj a =>
      let auth_type := Py.get "type" a in
      if negb (Py.is_str auth_type)
         || negb (match auth_type with JStr t => str_in t AUTH_TYPES | _ => false end)
      then
        _emit self "impl.auth_flow.structured_fields" false
          ("auth.type invalid: " +:+ Py.str auth_type)
      else if match auth_type with JStr t => str_in t ["bearer"; "oauth2"]%string | _ => false end
      then
        let has_instructions :=
          match Py.get "instructions" a with
          | JList l => 0 <? length l
          | _ => false
          end in
        let has_acquire := Py.is_dict (Py.get "acquire" a) in
        let has_apply := Py.is_dict (Py.get "apply" a) in
        let ok := has_instructions && has_acquire && has_apply in
        _emit self "impl.auth_flow.structured_fields" ok
          (if ok then "bearer/oauth2 auth includes instructions+acquire+apply"%string
           else "bearer/oauth2 auth should include instructions, acquire, and apply"%string)
      else ret tt
  | _ =>
      _emit self "impl.auth_flow.structured_fields" false "auth exists but is not an object"
  end.

Definition _check_auth_docs_requirement (self : Validator) : M unit :=
  let auth := Py.get "auth" (doc self) in
  let auth_type := match auth with JObj a => Py.get "type" a | _ => JNull end in
  let protected_expected :=
    match auth_type with
    | JStr t => negb (String.eqb t "none")
    | _ => false
    end in
  let check_id := "impl.auth_docs.required_for_protected"%string in
  if negb (defined self check_id) then ret tt
  else if protected_expected then
    _emit self check_id true
      "requires /ai-docs/auth for protected APIs (runtime endpoint verification out of scope for static document validation)"
  else
    _emit self check_id true "auth.type is none or missing; /ai-docs/auth requirement not triggered".

(** The loop shared by [_check_auth_required_presence] and
    [_check_response_content_type_support], which differ in the key. *)
Definition missing_key_step (key : string) (missing : list json) (ep : json) : list json :=
  match ep with
  | JObj e =>
      if negb (Py.contains key e)
      then missing ++ [Py.get_or "name" (JStr "<unknown>") e]
      else missing
  | _ => missing
  end.

Definition _check_auth_required_presence (self : Validator) : M unit :=
  let endpoints := endpoints_of self in
  let missing := fold_left (missing_key_step "auth_required") endpoints [] in
  _emit self "impl.endpoint.auth_required_supported"
    (length missing =? 0)
    (if length missing =? 0 then "all endpoints include auth_required"%string
     else "endpoints missing auth_required: " +:+ Py.repr (JList missing)).

Definition _check_response_content_type_support (self : Validator) : M unit :=
  let endpoints := endpoints_of self in
  let missing := fold_left (missing_key_step "response_content_type") endpoints [] in
  _emit self "impl.endpoint.response_content_type_supported"
    (length missing =? 0)
    (if length missing =? 0 then "all endpoints include response_content_type"%string
     else "endpoints missing response_content_type: " +:+ Py.repr (JList missing)).

(** The loops of [_check_param_constraints_published]; the state is
    [(params_total, constrained)]. *)
Definition constraint_step (st : nat * nat) (p : json) : nat * nat :=
  match p with
  | JObj pd =>
      (fst st + 1,
       if existsb (fun field => Py.contains field pd) CONSTRAINT_FIELDS
       then snd st + 1 else snd st)
  | _ => st
  end.

Definition constraints_step (st : nat * nat) (ep : json) : nat * nat :=
  match ep with
  | JObj e =>
      match Py.get_or "params" (JList []) e with
      | JList params => fold_left constraint_step params st
      | _ => st
      end
  | _ => st
  end.

Definition _check_param_constraints_published (self : Validator) : M unit :=
  let endpoints := endpoints_of self in
  let st := fold_left constraints_step endpoints (0, 0) in
  let params_total := fst st in
  let constrained := snd st in
  if params_total =? 0 then
    _emit self "impl.params.constraints_published" true
      "no params defined; constraint publication not applicable"
  else
    let ok := 0 <? constrained in
    _emit self "impl.params.constraints_published" ok
      (Py.of_nat constrained +:+ "/" +:+ Py.of_nat params_total
       +:+ " params publish machine-readable constraints").

Definition _check_agent_rules_consistent_shape (self : Validator) : M unit :=
  let rules := Py.get "agent_rules" (doc self) in
  match rules with
  | JNull =>
      _emit self "impl.agent_rules.consistent" true "agent_rules not present (optional)"
  | _ =>
      let ok :=
        match rules with
        | JList l =>
            forallb (fun x => match x with
                              | JStr s => negb (Py.is_empty (Py.strip s))
                              | _ => false
                              end) l
        | _ => false
        end in
      _emit self "impl.agent_rules.consistent" ok
        (if ok then "agent_rules is a non-empty string list"%string
         else "agent_rules should be an array of non-empty strings"%string)
  end.

Definition run (self : Validator) : M unit :=
  _check_top_level_required_fields self ;;;
  _check_endpoint_uniqueness self ;;;
  _check_params_uniqueness self ;;;
  _check_method_values self ;;;
  _check_param_locations self ;;;
  _check_auth_object self ;;;
  _check_auth_docs_requirement self ;;;
  _check_auth_required_presence self ;;;
  _check_response_content_type_support self ;;;
  _check_param_constraints_published self ;;;
  _check_agent_rules_consistent_shape self.

(** ** [print_report] and [main] *)

Fixpoint repeat_str (s : string) (n : nat) : string :=
  match n with
  | 0 => EmptyString
  | S n' => s +:+ repeat_str s n'
  end.

(** [result.level == lvl] for a string [lvl]. *)
Definition level_is (lvl : string) (r : CheckResult) : bool := Py.eqb (level r) (JStr lvl).

(** The body of the loop of [print_report]; the state is the texts printed
    so far, one per call of [print], and the two counters. *)
Definition report_step (st : list string * nat * nat) (result : CheckResult)
    : list string * nat * nat :=
  let '(out, must_fail, should_fail) := st in
  let status := if passed result then "PASS"%string else "FAIL"%string in
  let out :=
    out ++ ["[" +:+ status +:+ "] " +:+ check_id result +:+ " (" +:+ Py.str (level result) +:+ ")";
            "       " +:+ message result] in
  if negb (passed result) then
    if level_is "MUST" result then (out, must_fail + 1, should_fail)
    else if level_is "SHOULD" result then (out, must_fail, should_fail + 1)
    else (out, must_fail, should_fail)
  else (out, must_fail, should_fail).

Definition COMPLIANT : string := "Result: COMPLIANT (all MUST checks passed)".
Definition NOT_COMPLIANT : string := "Result: NOT COMPLIANT (one or more MUST checks failed)".

(** What is written to standard output: the text of each call of [print],
    in order.  [print] ends each text with a newline; a text spans several
    lines of output when a level or a message holds a newline of its own. *)
Definition print_report (results : list CheckResult) : list string :=
  let '(out, must_fail, should_fail) :=
    fold_left report_step results
      (["AIIF Conformance Report"%string; repeat_str "=" 72], 0, 0) in
  out ++ [repeat_str "-" 72;
          "Total checks: " +:+ Py.of_nat (length results);
          "MUST failures: " +:+ Py.of_nat must_fail;
          "SHOULD failures: " +:+ Py.of_nat should_fail;
          if must_fail =? 0 then COMPLIANT else NOT_COMPLIANT].

(** [sum(1 for r in results if (not r.passed and r.level == lvl))] *)
Definition count_failures (lvl : string) (results : list CheckResult) : nat :=
  length (List.filter (fun r => negb (passed r) && level_is lvl r) results).

(** The last three statements of [main]: the status returned from the two
    counts and [args.strict_should]. *)
Definition exit_status (must_fail should_fail : nat) (strict_should : bool) : Z :=
  if 0 <? must_fail then 1%Z
  else if strict_should && (0 <? should_fail) then 1%Z
  else 0%Z.

(** [main] from the construction of the validator on, given the two loaded
    documents: the texts printed and the status returned.  A raise leaves
    [main] before anything is printed. *)
Definition main (aiif_doc checklist_doc : dict) (strict_should : bool)
    : result (list string * Z) :=
  rbind (__init__ aiif_doc checklist_doc) (fun validator =>
  match run validator [] with
  | (Ok _, results) =>
      let must_fail := count_failures "MUST" results in
      let should_fail := count_failures "SHOULD" results in
      Ok (print_report results, exit_status must_fail should_fail strict_should)
  | (Raise e, _) => Raise e
  end).

(** ** Notions used by the statements *)

(** The two texts [print_report] prints for one result. *)
Definition result_lines (r : CheckResult) : list string :=
  ["[" +:+ (if passed r then "PASS" else "FAIL") +:+ "] " +:+ check_id r
     +:+ " (" +:+ Py.str (level r) +:+ ")";
   "       " +:+ message r].

Ltac pair_eq :=
  repeat match goal with |- (_, _) = (_, _) => f_equal end;
  try reflexivity; try lia.

(** The five texts [print_report] prints after the loop. *)
Definition summary (results : list CheckResult) : list string :=
  [repeat_str "-" 72;
   "Total checks: " +:+ Py.of_nat (length results);
   "MUST failures: " +:+ Py.of_nat (count_failures "MUST" results);
   "SHOULD failures: " +:+ Py.of_nat (count_failures "SHOULD" results);
   if count_failures "MUST" results =? 0 then COMPLIANT else NOT_COMPLIANT].

(** [n] of the results failed with the string [lvl] as their level. *)
Inductive failures (lvl : string) : list CheckResult -> nat -> Prop :=
| failures_nil : failures lvl [] 0
| failures_counted r rs n :
    passed r = false -> level r = JStr lvl -> failures lvl rs n ->
    failures lvl (r :: rs) (S n)
| failures_skipped r rs n :
    passed r = true \/ level r <> JStr lvl -> failures lvl rs n ->
    failures lvl (r :: rs) n.

Definition failed (id lvl : string) : CheckResult :=
  mkCheckResult id (JStr lvl) false "failed".

(** Failures at the levels SHOULD, INFO and an unrecognized one. *)
Definition lesser_failures : list CheckResult :=
  [failed "a" "SHOULD"; failed "b" "INFO"; failed "c" "CRITICAL"]%string.

(** The level the registry gives a check id: the value under ["level"] of
    the entry stored for the id, whatever that value is, and ["INFO"] when
    the id is not in the registry or its entry has no ["level"]. *)
Definition severity_of (defs : gmap string dict) (id : string) : json :=
  match defs !! id with
  | Some entry =>
      match Py.lookup "level" entry with
      | Some lvl => lvl
      | None => JStr "INFO"
      end
  | None => JStr "INFO"
  end.

(** The result appended under [id] by a validator. *)
Definition emitted (self : Validator) (id : string) (ok : bool) (msg : string) : CheckResult :=
  mkCheckResult id (severity_of (check_defs self) id) ok msg.

(** The level of [r] is the one the registry stores for its check id. *)
Definition level_from_registry (defs : gmap string dict) (r : CheckResult) : Prop :=
  match defs !! check_id r with
  | Some entry =>
      match Py.lookup "level" entry with
      | Some lvl => level r = lvl
      | None => level r = JStr "INFO"
      end
  | None => level r = JStr "INFO"
  end.

(** A method keeps a property of every result when each result it appends
    has the property. *)
Definition keeps (P : CheckResult -> Prop) {A} (m : M A) : Prop :=
  forall rs, Forall P rs -> Forall P (snd (m rs)).

(** The level as the specification words it: the declared level when it is
    one of MUST, SHOULD and INFO, and ["INFO"] when the id is absent, the
    entry has no level or the level is not recognized. *)
Definition claimed_level (defs : gmap string dict) (id : string) : json :=
  match defs !! id with
  | Some entry =>
      match Py.lookup "level" entry with
      | Some (JStr lvl) =>
          if str_in lvl ["MUST"; "SHOULD"; "INFO"]%string then JStr lvl else JStr "INFO"
      | _ => JStr "INFO"
      end
  | None => JStr "INFO"
  end.

(** [item] is an entry whose [id] is the string [id]. *)
Definition has_id (id : string) (item : json) : bool :=
  match item with
  | JObj d =>
      match Py.get "id" d with
      | JStr i => String.eqb i id
      | _ => false
      end
  | _ => false
  end.

(** [item] is an entry whose [id] is a string. *)
Definition has_str_id (item : json) : bool :=
  match item with
  | JObj d => Py.is_str (Py.get "id" d)
  | _ => false
  end.

(** The last entry of [checks], in sequence order, whose [id] is [id]. *)
Fixpoint last_entry (id : string) (checks : list json) : option dict :=
  match checks with
  | [] => None
  | item :: rest =>
      match last_entry id rest with
      | Some d => Some d
      | None =>
          match item with
          | JObj d => if has_id id item then Some d else None
          | _ => None
          end
      end
  end.

(** ** Concrete documents and checklists *)

Definition empty_doc : dict := [].

Definition critical_entry : dict :=
  [("id", JStr "impl.top_level.required_fields"); ("level", JStr "CRITICAL")]%string.

(** [{"checks": [{"id": "impl.top_level.required_fields", "level": "CRITICAL"}]}] *)
Definition critical_checklist : dict :=
  [("checks"%string, JList [JObj critical_entry])].

Definition critical_defs : gmap string dict :=
  <["impl.top_level.required_fields"%string := critical_entry]> ∅.

Definition is_entry (item : json) : Prop := Py.is_dict item = true.

Definition must_entry : dict :=
  [("id", JStr "impl.agent_rules.consistent"); ("level", JStr "MUST")]%string.
Definition should_entry : dict :=
  [("id", JStr "impl.agent_rules.consistent"); ("level", JStr "SHOULD")]%string.
Definition numbered_entry : dict := [("id", JInt 7); ("level", JStr "MUST")]%string.

(** Two entries for the same id around one whose id is a number. *)
Definition redefining_checks : list json :=
  [JObj must_entry; JObj numbered_entry; JObj should_entry].
Definition redefining_checklist : dict := [("checks"%string, JList redefining_checks)].

(** Two entries for the same id followed by an item that is not an object:
    [{"checks": [{"id": "impl.agent_rules.consistent", "level": "MUST"},
    {"id": "impl.agent_rules.consistent", "level": "SHOULD"}, 7]}] *)
Definition trailing_number_checklist : dict :=
  [("checks"%string, JList [JObj must_entry; JObj should_entry; JInt 7])].

(** The same without the last item. *)
Definition twice_defined_checklist : dict :=
  [("checks"%string, JList [JObj must_entry; JObj should_entry])].

(** [{"auth": null}] *)
Definition null_auth_doc : dict := [("auth"%string, JNull)].

(** [{"auth": {"type": "bearer"}}] *)
Definition bearer_doc : dict := [("auth"%string, JObj [("type"%string, JStr "bearer")])].

(** The same with [instructions], [acquire] and [apply]. *)
Definition bearer_full_doc : dict :=
  [("auth"%string,
    JObj [("type", JStr "bearer"); ("instructions", JList [JStr "get a token"]);
          ("acquire", JObj []); ("apply", JObj [])]%string)].

(** [v] is a string that is not empty once its whitespace is trimmed. *)
Definition nonblank_string (v : json) : Prop :=
  exists s, v = JStr s /\ Py.strip s <> EmptyString.

(** [{"aiif_version": " ", "info": {}, "endpoints": []}] *)
Definition blank_version_doc : dict :=
  [("aiif_version", JStr " "); ("info", JObj []); ("endpoints", JList [])]%string.

(** [{"aiif_version": 3}] *)
Definition numeric_version_doc : dict := [("aiif_version"%string, JInt 3)].

(** The object-shaped params of one endpoint. *)
Definition object_params (ep : json) : list dict :=
  match ep with
  | JObj e =>
      match Py.get_or "params" (JList []) e with
      | JList params =>
          flat_map (fun p => match p with JObj pd => [pd] | _ => [] end) params
      | _ => []
      end
  | _ => []
  end.

(** The object-shaped params of all endpoints of the document. *)
Definition doc_params (self : Validator) : list dict :=
  flat_map object_params (endpoints_of self).

(** [p] declares at least one of the six constraint fields. *)
Definition declares_constraint (p : dict) : bool :=
  existsb (fun field => Py.contains field p)
    ["minimum"; "maximum"; "min_length"; "max_length"; "pattern"; "format"]%string.

Definition plain_param (n : Z) : json :=
  JObj [("name", JInt n); ("location", JStr "query")]%string.

(** One endpoint with ten params, of which the first alone declares a
    constraint ([format]). *)
Definition ten_params_doc : dict :=
  [("endpoints"%string,
    JList [JObj [("name", JStr "a");
                 ("params",
                  JList (JObj [("name", JStr "p"); ("location", JStr "query");
                               ("format", JStr "uuid")]
                         :: map plain_param [1; 2; 3; 4; 5; 6; 7; 8; 9]%Z))]%string])].

(** [{"aiif_version": "1.0", "info": {}, "endpoints": "none"}] and the same
    document with an empty endpoint list. *)
Definition string_endpoints_doc : dict :=
  [("aiif_version", JStr "1.0"); ("info", JObj []); ("endpoints", JStr "none")]%string.
Definition no_endpoints_doc : dict :=
  [("aiif_version", JStr "1.0"); ("info", JObj []); ("endpoints", JList [])]%string.

(** [{"checks": []}] and [{"checks": [7]}] *)
Definition empty_checklist : dict := [("checks"%string, JList [])].
Definition number_entry_checklist : dict := [("checks"%string, JList [JInt 7])].

(** A complete document whose one param has a list as [name]. *)
Definition list_name_doc : dict :=
  [("aiif_version", JStr "1.0"); ("info", JObj []);
   ("endpoints",
    JList [JObj [("name", JStr "a"); ("method", JStr "GET"); ("path", JStr "/x");
                 ("params", JList [JObj [("name", JList []); ("location", JStr "query")]]);
                 ("auth_required", JBool true);
                 ("response_content_type", JStr "application/json")]])]%string.

(** A complete document whose one param has a list as [location]. *)
Definition list_location_doc : dict :=
  [("aiif_version", JStr "1.0"); ("info", JObj []);
   ("endpoints",
    JList [JObj [("name", JStr "a"); ("method", JStr "GET"); ("path", JStr "/x");
                 ("params", JList [JObj [("name", JStr "p"); ("location", JList [])]]);
                 ("auth_required", JBool true);
                 ("response_content_type", JStr "application/json")]])]%string.

Definition locations_entry : dict :=
  [("id", JStr "impl.params.location.allowed"); ("level", JStr "MUST")]%string.

(** [{"checks": [{"id": "impl.params.location.allowed", "level": "MUST"}]}] *)
Definition locations_checklist : dict := [("checks"%string, JList [JObj locations_entry])].
Definition locations_defs : gmap string dict :=
  <["impl.params.location.allowed"%string := locations_entry]> ∅.

(** A result without its level. *)
Definition outcome (r : CheckResult) : string * bool * string :=
  (check_id r, passed r, message r).

(** Two methods raise alike and append results with the same outcomes. *)
Definition same_outcomes (m m' : M unit) : Prop :=
  forall rs rs',
    map outcome rs = map outcome rs' ->
    fst (m rs) = fst (m' rs')
    /\ map outcome (snd (m rs)) = map outcome (snd (m' rs')).

(** [m] returns, whatever the results so far. *)
Definition returns (m : M unit) : Prop := forall rs, fst (m rs) = Ok tt.

Definition all_ids : list string :=
  ["impl.top_level.required_fields"; "impl.endpoint_name.unique";
   "impl.method_path.unique"; "impl.params.unique_by_name_location";
   "impl.endpoint.method.allowed"; "impl.params.location.allowed";
   "impl.auth_flow.structured_fields"; "impl.auth_docs.required_for_protected";
   "impl.endpoint.auth_required_supported";
   "impl.endpoint.response_content_type_supported";
   "impl.params.constraints_published"; "impl.agent_rules.consistent"]%string.

(** A checklist that defines every check id at level MUST. *)
Definition all_must_checklist : dict :=
  [("checks"%string,
    JList (map (fun id => JObj [("id", JStr id); ("level", JStr "MUST")]%string) all_ids))].

(** The complete document of the end-to-end case. *)
Definition complete_doc : dict :=
  [("aiif_version", JStr "1.0"); ("info", JObj []);
   ("endpoints",
    JList [JObj [("name", JStr "a"); ("method", JStr "GET"); ("path", JStr "/x");
                 ("params", JList []); ("auth_required", JBool true);
                 ("response_content_type", JStr "application/json")]])]%string.

(** [hash(v)] returns. *)
Definition hashable (v : json) : bool := negb (Py.is_list v || Py.is_dict v).

(** No object-shaped param of the document has a [name] or a [location] that
    cannot be hashed. *)
Definition param_hashable (p : json) : bool :=
  match p with
  | JObj pd => hashable (Py.get "name" pd) && hashable (Py.get "location" pd)
  | _ => true
  end.

Definition endpoint_hashable (ep : json) : bool :=
  match ep with
  | JObj e =>
      match Py.get_or "params" (JList []) e with
      | JList params => forallb param_hashable params
      | _ => true
      end
  | _ => true
  end.

Definition doc_hashable (self : Validator) : bool :=
  forallb endpoint_hashable (endpoints_of self).

(** ** Notions used by the further properties *)

(** [m] appends the same results and ends the same way whatever the results
    so far. *)
Definition appends {A} (m : M A) (r : result A) (new : list CheckResult) : Prop :=
  forall rs, m rs = (r, rs ++ new).

(** The object-shaped endpoints of the document. *)
Definition object_endpoints (self : Validator) : list dict :=
  flat_map (fun ep => match ep with JObj e => [e] | _ => [] end) (endpoints_of self).

(** Whether the auth_object rule appends a result: [auth] is neither absent
    nor null, and is not an object whose [type] is none, api_key or basic. *)
Definition auth_object_emits (d : dict) : bool :=
  match Py.get "auth" d with
  | JNull => false
  | JObj a =>
      match Py.get "type" a with
      | JStr t => negb (str_in t ["none"; "api_key"; "basic"]%string)
      | _ => true
      end
  | _ => true
  end.

(** The check ids of a complete run, in order. *)
Definition run_ids (self : Validator) : list string :=
  ["impl.top_level.required_fields"; "impl.endpoint_name.unique";
   "impl.method_path.unique"; "impl.params.unique_by_name_location"]%string
  ++ (if defined self "impl.endpoint.method.allowed"
      then ["impl.endpoint.method.allowed"%string] else [])
  ++ (if defined self "impl.params.location.allowed"
      then ["impl.params.location.allowed"%string] else [])
  ++ (if auth_object_emits (doc self)
      then ["impl.auth_flow.structured_fields"%string] else [])
  ++ (if defined self "impl.auth_docs.required_for_protected"
      then ["impl.auth_docs.required_for_protected"%string] else [])
  ++ ["impl.endpoint.auth_required_supported";
      "impl.endpoint.response_content_type_supported";
      "impl.params.constraints_published"; "impl.agent_rules.consistent"]%string.

(** [m] returns after appending results with the check ids [ids]. *)
Definition emits_ids (m : M unit) (ids : list string) : Prop :=
  exists new, appends m (Ok tt) new /\ map check_id new = ids.

(** The string names of the object-shaped endpoints, in order. *)
Definition endpoint_names (endpoints : list json) : list string :=
  flat_map (fun ep =>
              match ep with
              | JObj e => match Py.get "name" e with JStr n => [n] | _ => [] end
              | _ => []
              end) endpoints.

(** The (method, path) pairs of the object-shaped endpoints in which both
    are strings, in order. *)
Definition endpoint_method_paths (endpoints : list json) : list (string * string) :=
  flat_map (fun ep =>
              match ep with
              | JObj e =>
                  match Py.get "method" e, Py.get "path" e with
                  | JStr m, JStr p => [(m, p)]
                  | _, _ => []
                  end
              | _ => []
              end) endpoints.

(** The number of times [k] occurs in [l]. *)
Definition occurrences `{EqDecision K} (k : K) (l : list K) : nat :=
  length (List.filter (fun x => bool_decide (x = k)) l).

(** One round of "flag if seen, then remember" on a pair of sets. *)
Definition note `{Countable K} (sd : gset K * gset K) (k : K) : gset K * gset K :=
  ({[k]} ∪ fst sd, if bool_decide (k ∈ fst sd) then {[k]} ∪ snd sd else snd sd).

(** [a == b] on (name, location) pairs. *)
Definition key_eqb (a b : json * json) : bool :=
  Py.eqb (fst a) (fst b) && Py.eqb (snd a) (snd b).

(** The (name, location) pairs of the object-shaped params of an endpoint,
    in order. *)
Definition param_keys (ep : json) : list (json * json) :=
  map (fun pd => (Py.get "name" pd, Py.get "location" pd)) (object_params ep).

(** No two pairs of the list are equal. *)
Fixpoint keys_unique (ks : list (json * json)) : bool :=
  match ks with
  | [] => true
  | k :: rest => negb (existsb (key_eqb k) rest) && keys_unique rest
  end.

(** The pairs of [ks] that are equal to a pair before them or in [seen]. *)
Fixpoint repeated_keys (seen ks : list (json * json)) : list (json * json) :=
  match ks with
  | [] => []
  | k :: rest =>
      (if existsb (key_eqb k) seen then [k] else []) ++ repeated_keys (k :: seen) rest
  end.

(** What one endpoint adds to [violations]. *)
Definition endpoint_violations (ep : json) : list string :=
  match ep with
  | JObj e =>
      map (fun k => Py.str (Py.get_or "name" (JStr "<unknown>") e)
                    +:+ ":" +:+ Py.repr_pair (fst k) (snd k))
          (repeated_keys [] (param_keys ep))
  | _ => []
  end.

(** [ok] holds of every item of the [params] list of an object-shaped
    endpoint. *)
Definition params_all (ok : json -> bool) (ep : json) : bool :=
  match ep with
  | JObj e =>
      match Py.get_or "params" (JList []) e with
      | JList params => forallb ok params
      | _ => true
      end
  | _ => true
  end.

(** One endpoint whose third param repeats the (name, location) pair of the
    first. *)
Definition repeated_param_doc : dict :=
  [("endpoints"%string,
    JList [JObj [("name", JStr "a");
                 ("params",
                  JList [JObj [("name", JStr "p"); ("location", JStr "query")];
                         JObj [("name", JStr "p"); ("location", JStr "path")];
                         JObj [("name", JStr "p"); ("location", JStr "query")]])]%string])].

(** [location] of an object-shaped param can be hashed. *)
Definition location_hashable (p : json) : bool :=
  match p with
  | JObj pd => hashable (Py.get "location" pd)
  | _ => true
  end.

Definition doc_locations_hashable (self : Validator) : bool :=
  forallb (params_all location_hashable) (endpoints_of self).

(** [location] of a param is one of the strings path, query, body. *)
Definition location_allowed (pd : dict) : bool :=
  match Py.get "location" pd with
  | JStr loc => str_in loc ["path"; "query"; "body"]%string
  | _ => false
  end.

(** [method] of an endpoint is one of the five method strings. *)
Definition method_allowed (e : dict) : bool :=
  match Py.get "method" e with
  | JStr m => str_in m ["GET"; "POST"; "PUT"; "PATCH"; "DELETE"]%string
  | _ => false
  end.

(** A registry that defines [id] at level MUST and nothing else. *)
Definition only_defs (id : string) : gmap string dict :=
  <[id := [("id", JStr id); ("level", JStr "MUST")]%string]> ∅.

(** [{"endpoints": [{"name": "a", "method": "get"}]}]: the method is in
    lower case. *)
Definition lowercase_method_doc : dict :=
  [("endpoints"%string, JList [JObj [("name", JStr "a"); ("method", JStr "get")]%string])].

(** One endpoint with a param in the header. *)
Definition header_param_doc : dict :=
  [("endpoints"%string,
    JList [JObj [("name", JStr "a");
                 ("params", JList [JObj [("name", JStr "p"); ("location", JStr "header")]])]%string])].

(** The names reported for the object-shaped endpoints that lack [key]. *)
Definition names_missing (key : string) (endpoints : list json) : list json :=
  flat_map (fun ep =>
              match ep with
              | JObj e =>
                  if Py.contains key e then []
                  else [Py.get_or "name" (JStr "<unknown>") e]
              | _ => []
              end) endpoints.

(** Whether documentation for a protected API is expected: [auth] is an
    object whose [type] is a string other than none. *)
Definition protected_expected (d : dict) : bool :=
  match Py.get "auth" d with
  | JObj a =>
      match Py.get "type" a with
      | JStr t => negb (String.eqb t "none")
      | _ => false
      end
  | _ => false
  end.

(** The validator [__init__] builds, with the empty registry where it
    raises. *)
Definition validator_of (doc checklist : dict) : Validator :=
  match __init__ doc checklist with
  | Ok v => v
  | Raise _ => mkValidator doc checklist ∅
  end.


(** The complete document with two items that are not objects around its
    endpoint. *)
Definition padded_endpoints_doc : dict :=
  [("aiif_version", JStr "1.0"); ("info", JObj []);
   ("endpoints",
    JList [JInt 4;
           JObj [("name", JStr "a"); ("method", JStr "GET"); ("path", JStr "/x");
                 ("params", JList []); ("auth_required", JBool true);
                 ("response_content_type", JStr "application/json")];
           JStr "x"])]%string.

(** A checklist that gives the first rule level SHOULD, and the empty
    document, which fails that rule. *)
Definition should_checklist : dict :=
  [("checks"%string,
    JList [JObj [("id", JStr "impl.top_level.required_fields");
                 ("level", JStr "SHOULD")]%string])].

(** The registry of [redefining_checklist]. *)
Definition redefining_defs : gmap string dict :=
  <["impl.agent_rules.consistent"%string := should_entry]> ∅.

(** ** [main] from the command line on *)

(** [t in s] for two strings: [t] occurs in [s]. *)
Fixpoint occurs_in (t s : string) : bool :=
  String.prefix t s
  || match s with
     | EmptyString => false
     | String _ s' => occurs_in t s'
     end.

(** [k in v] for a string [k] and a loaded value [v] of any shape: a key of
    a dict, an item of a list, a part of a string; the other values are not
    containers. *)
Definition str_in_value (k : string) (v : json) : result bool :=
  match v with
  | JObj d => Ok (Py.contains k d)
  | JList items => Ok (existsb (Py.eqb (JStr k)) items)
  | JStr s => Ok (occurs_in k s)
  | JNull | JBool _ | JInt _ => Raise TypeError
  end.

(** [v.get]: of the loaded values only a dict has the method. *)
Definition get_method (v : json) : result dict :=
  match v with
  | JObj d => Ok d
  | _ => Raise AttributeError
  end.

(** [[k for k in required if k not in self.doc]] *)
Fixpoint missing_keys (doc : json) (required : list string) : result (list string) :=
  match required with
  | [] => Ok []
  | k :: rest =>
      rbind (str_in_value k doc) (fun present =>
      rbind (missing_keys doc rest) (fun missing =>
      Ok (if present then missing else k :: missing)))
  end.

(** The body of [_check_top_level_required_fields] up to its [_emit], on a
    [self.doc] of any shape: the verdict and the message it would emit. *)
Definition top_level_verdict (doc : json) : result (bool * string) :=
  let required := ["aiif_version"; "info"; "endpoints"]%string in
  rbind (missing_keys doc required) (fun missing =>
  rbind (get_method doc) (fun d =>
  let aiif_version := Py.get "aiif_version" d in
  let aiif_version_ok :=
    match aiif_version with
    | JStr s => negb (Py.is_empty (Py.strip s))
    | _ => false
    end in
  let ok :=
    is_nil missing && aiif_version_ok
    && Py.is_list (Py.get "endpoints" d)
    && Py.is_dict (Py.get "info" d) in
  let msg :=
    if ok then "top-level required fields present"%string
    else
      let details :=
        missing ++ (if aiif_version_ok then []
                    else ["aiif_version (must be non-empty string)"%string]) in
      "missing/invalid top-level fields: " +:+ Py.repr_strs details in
  Ok (ok, msg))).

(** [main] from the construction of the validator on, for loaded values of
    any shape.  [Validator(...)] calls [checklist.get] and builds the
    registry; [run] starts with the first rule on [self.doc] as it is.
    Where that rule gets as far as its [_emit], [self.doc] has a [get] and
    the run is the one [main] describes. *)
Definition main_loaded (aiif_doc checklist_doc : json) (strict_should : bool)
    : result (list string * Z) :=
  rbind (get_method checklist_doc) (fun cl =>
  rbind (_index_checks cl) (fun _ =>
  rbind (top_level_verdict aiif_doc) (fun _ =>
  rbind (get_method aiif_doc) (fun d =>
  main d cl strict_should)))).

(** An exception of [open], of reading or of [json.load] that is not a
    JSONDecodeError; [main] does not catch it. *)
Inductive load_error : Type := OSError | UnicodeDecodeError | ValueError | RecursionError.

(** What [load_json] makes of a path that exists: an exception that [main]
    does not catch, a JSONDecodeError (with its text), or a value. *)
Inductive content : Type :=
| Unreadable (e : load_error)
| Invalid (exc : string)
| Loaded (value : json).

(** How [main] ends: it returns a status after printing, or it ends by an
    exception of the validator or of loading. *)
Inductive ending : Type :=
| Returns (out : list string) (status : Z)
| Raises (e : exn)
| LoadRaises (e : load_error).

Definition ending_of (r : result (list string * Z)) : ending :=
  match r with
  | Ok (out, status) => Returns out status
  | Raise e => Raises e
  end.

(** [main]: [files] is the file system ([None] for a path that does not
    exist), [aiif] and [checklist] are [args.aiif] and [args.checklist]. *)
Definition main_cli (files : string -> option content) (aiif checklist : string)
    (strict_should : bool) : ending :=
  match files aiif with
  | None => Returns ["AIIF file not found: " +:+ aiif] 2%Z
  | Some aiif_text =>
      match files checklist with
      | None => Returns ["Checklist file not found: " +:+ checklist] 2%Z
      | Some checklist_text =>
          match aiif_text with
          | Unreadable e => LoadRaises e
          | Invalid exc => Returns ["Invalid JSON: " +:+ exc] 2%Z
          | Loaded aiif_doc =>
              match checklist_text with
              | Unreadable e => LoadRaises e
              | Invalid exc => Returns ["Invalid JSON: " +:+ exc] 2%Z
              | Loaded checklist_doc =>
                  ending_of (main_loaded aiif_doc checklist_doc strict_should)
              end
          end
      end
  end.

(** A file system with the complete document, the all-MUST checklist, a
    file that is not JSON, a file that holds a JSON array and a directory. *)
Definition sample_files (path : string) : option content :=
  if String.eqb path "api.json" then Some (Loaded (JObj complete_doc))
  else if String.eqb path "checklist.json" then Some (Loaded (JObj all_must_checklist))
  else if String.eqb path "broken.json"
       then Some (Invalid "Expecting value: line 1 column 1 (char 0)")
  else if String.eqb path "array.json" then Some (Loaded (JList []))
  else if String.eqb path "folder" then Some (Unreadable OSError)
  else None.

(** The ids of the three rules that emit only when the checklist defines
    them. *)
Definition conditional_ids : list string :=
  ["impl.endpoint.method.allowed"; "impl.params.location.allowed";
   "impl.auth_docs.required_for_protected"]%string.

(** Two checklists for the complete document: one that defines every id at
    level MUST, one that defines the three conditional ids at level INFO. *)
Definition conditional_info_defs : gmap string dict :=
  <["impl.endpoint.method.allowed"%string :=
      [("id", JStr "impl.endpoint.method.allowed"); ("level", JStr "INFO")]%string]>
  (<["impl.params.location.allowed"%string :=
      [("id", JStr "impl.params.location.allowed"); ("level", JStr "INFO")]%string]>
  (<["impl.auth_docs.required_for_protected"%string :=
      [("id", JStr "impl.auth_docs.required_for_protected"); ("level", JStr "INFO")]%string]>
   ∅)).

(** ** Standard output as text *)





(** * Properties *)

(** ** The counters of [print_report] and the counts of [main] *)

Lemma level_is_exclusive r : level_is "MUST" r = true -> level_is "SHOULD" r = false.
Proof.
  unfold level_is. destruct (level r) as [| | |s| |]; simpl; try discriminate.
  intros H. apply String.eqb_eq in H. subst s. reflexivity.
Qed.

Lemma count_failures_cons lvl r rs :
  count_failures lvl (r :: rs)
  = (if negb (passed r) && level_is lvl r then 1 else 0) + count_failures lvl rs.
Proof.
  unfold count_failures. simpl.
  destruct (negb (passed r) && level_is lvl r); reflexivity.
Qed.

Lemma report_loop rs : forall out m s,
  fold_left report_step rs (out, m, s)
  = (out ++ flat_map result_lines rs,
     m + count_failures "MUST" rs, s + count_failures "SHOULD" rs).
Proof.
  induction rs as [|r rs IH]; intros out m s.
  - simpl. unfold count_failures. simpl. rewrite app_nil_r. pair_eq.
  - cbn [fold_left]. rewrite !count_failures_cons.
    unfold report_step at 2.
    destruct (passed r) eqn:Hp; cbn [negb andb].
    + rewrite IH. cbn [flat_map]. unfold result_lines at 2. rewrite Hp.
      rewrite <- app_assoc. pair_eq.
    + destruct (level_is "MUST" r) eqn:Hm.
      * rewrite (level_is_exclusive r Hm).
        rewrite IH. cbn [flat_map]. unfold result_lines at 2. rewrite Hp.
        rewrite <- app_assoc. pair_eq.
      * destruct (level_is "SHOULD" r) eqn:Hs;
          rewrite IH; cbn [flat_map]; unfold result_lines at 2; rewrite Hp;
          rewrite <- app_assoc; pair_eq.
Qed.

Lemma print_report_shape rs :
  print_report rs
  = ["AIIF Conformance Report"%string; repeat_str "=" 72]
    ++ flat_map result_lines rs ++ summary rs.
Proof.
  unfold print_report. rewrite report_loop. cbn [Nat.add].
  rewrite <- app_assoc. reflexivity.
Qed.

Lemma print_report_counts rs :
  print_report rs
  = (["AIIF Conformance Report"%string; repeat_str "=" 72]
     ++ flat_map result_lines rs
     ++ [repeat_str "-" 72; "Total checks: " +:+ Py.of_nat (length rs)])
    ++ ["MUST failures: " +:+ Py.of_nat (count_failures "MUST" rs);
        "SHOULD failures: " +:+ Py.of_nat (count_failures "SHOULD" rs);
        if count_failures "MUST" rs =? 0 then COMPLIANT else NOT_COMPLIANT].
Proof.
  rewrite print_report_shape. unfold summary.
  set (h := [_; repeat_str "=" 72]). set (f := flat_map _ _).
  rewrite <- (app_assoc h), <- (app_assoc f). reflexivity.
Qed.

Lemma last_print_report rs :
  last (print_report rs)
  = Some (if count_failures "MUST" rs =? 0 then COMPLIANT else NOT_COMPLIANT).
Proof.
  rewrite print_report_shape, !last_app. reflexivity.
Qed.

Lemma level_is_spec lvl r : level_is lvl r = true <-> level r = JStr lvl.
Proof.
  unfold level_is. destruct (level r) as [| | |s| |]; cbn;
    try (split; [discriminate | intros H; discriminate H]).
  rewrite String.eqb_eq. split; [intros ->; reflexivity | intros [= ->]; reflexivity].
Qed.

Lemma counted_spec lvl r :
  negb (passed r) && level_is lvl r = true <-> passed r = false /\ level r = JStr lvl.
Proof.
  rewrite andb_true_iff, negb_true_iff, level_is_spec. reflexivity.
Qed.

Lemma not_counted_spec lvl r :
  negb (passed r) && level_is lvl r = false <-> passed r = true \/ level r <> JStr lvl.
Proof.
  rewrite andb_false_iff, negb_false_iff, <- level_is_spec.
  destruct (level_is lvl r); split; intros [H|H]; auto; try discriminate H;
    try (exfalso; apply H; reflexivity).
Qed.

Lemma count_failures_app lvl rs1 rs2 :
  count_failures lvl (rs1 ++ rs2) = count_failures lvl rs1 + count_failures lvl rs2.
Proof.
  unfold count_failures. rewrite List.filter_app, length_app. reflexivity.
Qed.

Lemma count_failures_insert lvl before r after :
  passed r = true \/ level r <> JStr lvl ->
  count_failures lvl (before ++ r :: after) = count_failures lvl (before ++ after).
Proof.
  intros Hr. apply not_counted_spec in Hr.
  rewrite !count_failures_app, count_failures_cons, Hr. reflexivity.
Qed.

Lemma count_failures_failures lvl rs : failures lvl rs (count_failures lvl rs).
Proof.
  induction rs as [|r rs IH]; [constructor|].
  rewrite count_failures_cons.
  destruct (negb (passed r) && level_is lvl r) eqn:Hc.
  - apply counted_spec in Hc. destruct Hc as [Hp Hl].
    apply failures_counted; assumption.
  - apply not_counted_spec in Hc. apply failures_skipped; assumption.
Qed.

Lemma count_failures_zero lvl rs :
  count_failures lvl rs = 0
  <-> forall r, In r rs -> level r = JStr lvl -> passed r = true.
Proof.
  induction rs as [|r rs IH]; [split; [intros _ r [] | reflexivity]|].
  rewrite count_failures_cons. split.
  - intros H r' [<- | Hin] Hl.
    + destruct (negb (passed r) && level_is lvl r) eqn:Hc; [discriminate H|].
      apply not_counted_spec in Hc. destruct Hc as [Hp | Hn]; [exact Hp | contradiction].
    + apply IH; [|exact Hin | exact Hl].
      destruct (negb (passed r) && level_is lvl r); [discriminate H | exact H].
  - intros H.
    assert (Hc : negb (passed r) && level_is lvl r = false).
    { apply not_counted_spec. destruct (passed r) eqn:Hp; [left; reflexivity|].
      right. intros Hl. specialize (H r (or_introl eq_refl) Hl). congruence. }
    rewrite Hc. apply IH. intros r' Hin. apply H. right. exact Hin.
Qed.

Lemma last_line_cases {A} (a b : A) (n : nat) :
  a <> b ->
  (Some (if n =? 0 then a else b) = Some a <-> n = 0)
  /\ (Some (if n =? 0 then a else b) = Some b <-> n <> 0).
Proof.
  intros Hab. destruct n as [|n]; cbn; repeat split; intros; congruence.
Qed.

(** ** C1: the exit status *)

(** C1. The status returned by [main] is a function of the number of MUST
    failures, the number of SHOULD failures and the strict flag alone: it
    is 1 exactly when there is a MUST failure, or the flag is set and there
    is a SHOULD failure, and 0 otherwise; in particular
    (0, 2, not strict) gives 0, (0, 2, strict) gives 1 and
    (1, 0, not strict) gives 1. *)
Theorem exit_status_verdict (must_fail should_fail : nat) (strict : bool) :
  (exit_status must_fail should_fail strict = 1%Z
   <-> 0 < must_fail \/ (must_fail = 0 /\ strict = true /\ 0 < should_fail))
  /\ (exit_status must_fail should_fail strict = 0%Z
      <-> must_fail = 0 /\ (strict = false \/ should_fail = 0))
  /\ exit_status 0 2 false = 0%Z
  /\ exit_status 0 2 true = 1%Z
  /\ exit_status 1 0 false = 1%Z.
Proof.
  unfold exit_status.
  destruct must_fail as [|m], strict, should_fail as [|s]; cbn;
    repeat split; intros; try discriminate; try reflexivity; try lia;
    try (intuition (try discriminate; try lia)).
Qed.

(** When the validator is built and [run] completes, [main] prints the
    report of the results and returns the status of their two counts. *)
Lemma main_exit_status aiif_doc checklist_doc strict validator results :
  __init__ aiif_doc checklist_doc = Ok validator ->
  run validator [] = (Ok tt, results) ->
  main aiif_doc checklist_doc strict
  = Ok (print_report results,
        exit_status (count_failures "MUST" results)
                    (count_failures "SHOULD" results) strict).
Proof.
  intros Hinit Hrun. unfold main. rewrite Hinit. cbn [rbind]. rewrite Hrun. reflexivity.
Qed.

(** The end-to-end case of the specification: a complete document against
    a checklist that defines every id at level MUST is compliant. *)
Example complete_doc_is_compliant :
  exists out,
    main complete_doc all_must_checklist false = Ok (out, 0%Z)
    /\ last out = Some COMPLIANT.
Proof. eexists. split; vm_compute; reflexivity. Qed.

(** ** C2: the compliance line *)

(** C2. The last text printed by [print_report] is the COMPLIANT line if
    and only if no result whose level is the string MUST has failed, and
    the NOT COMPLIANT line if and only if some such result has failed.
    Adding a result of any other level, SHOULD and INFO among them, passed
    or failed, anywhere in the list leaves that line as it is.  The two
    counts printed before it are the number of failed results whose level
    is MUST and the number of those whose level is SHOULD, so that adding a
    result of level INFO, or of any level other than these two, leaves the
    two counts and the line unchanged. *)
Theorem report_compliance_line (results : list CheckResult) :
  (last (print_report results) = Some COMPLIANT
   <-> forall r, In r results -> level r = JStr "MUST" -> passed r = true)
  /\ (last (print_report results) = Some NOT_COMPLIANT
      <-> exists r, In r results /\ level r = JStr "MUST" /\ passed r = false)
  /\ (forall before r after,
        results = before ++ after -> level r <> JStr "MUST" ->
        last (print_report (before ++ r :: after)) = last (print_report results))
  /\ (exists must_fail should_fail body,
        failures "MUST" results must_fail
        /\ failures "SHOULD" results should_fail
        /\ print_report results
           = body ++ ["MUST failures: " +:+ Py.of_nat must_fail;
                      "SHOULD failures: " +:+ Py.of_nat should_fail;
                      if must_fail =? 0 then COMPLIANT else NOT_COMPLIANT])
  /\ (forall before r after,
        results = before ++ after ->
        level r <> JStr "MUST" -> level r <> JStr "SHOULD" ->
        exists body body' m s final,
          print_report results = body ++ [m; s; final]
          /\ print_report (before ++ r :: after) = body' ++ [m; s; final]).
Proof.
  assert (Hne : COMPLIANT <> NOT_COMPLIANT) by discriminate.
  split; [|split; [|split; [|split]]].
  - rewrite last_print_report.
    rewrite (proj1 (last_line_cases COMPLIANT NOT_COMPLIANT _ Hne)).
    apply count_failures_zero.
  - rewrite last_print_report.
    rewrite (proj2 (last_line_cases COMPLIANT NOT_COMPLIANT _ Hne)).
    rewrite count_failures_zero. split.
    + intros Hn.
      assert (Hex : Exists (fun r => level r = JStr "MUST" /\ passed r = false) results).
      { induction results as [|r rs IH].
        - exfalso. apply Hn. intros r [].
        - destruct (level_is "MUST" r) eqn:Hl, (passed r) eqn:Hp.
          + right. apply IH. intros Hrs. apply Hn. intros r' [<- | Hin] Hl'.
            * exact Hp.
            * apply Hrs; assumption.
          + left. split; [apply level_is_spec; exact Hl | exact Hp].
          + right. apply IH. intros Hrs. apply Hn. intros r' [<- | Hin] Hl'.
            * exact Hp.
            * apply Hrs; assumption.
          + right. apply IH. intros Hrs. apply Hn. intros r' [<- | Hin] Hl'.
            * apply level_is_spec in Hl'. congruence.
            * apply Hrs; assumption. }
      apply List.Exists_exists in Hex. destruct Hex as (r & Hin & Hl & Hp). eauto.
    + intros (r & Hin & Hl & Hp) Hall. specialize (Hall r Hin Hl). congruence.
  - intros before r after -> Hl. rewrite !last_print_report.
    rewrite count_failures_insert by (right; exact Hl). reflexivity.
  - exists (count_failures "MUST" results), (count_failures "SHOULD" results).
    eexists. split; [apply count_failures_failures|].
    split; [apply count_failures_failures | apply print_report_counts].
  - intros before r after -> Hm Hs.
    eexists _, _, _, _, _. split; [apply print_report_counts|].
    rewrite print_report_counts.
    rewrite !count_failures_insert by (right; assumption). reflexivity.
Qed.

(** Failures at the levels SHOULD, INFO and CRITICAL leave the report
    COMPLIANT; one failure at the level MUST makes it NOT COMPLIANT. *)
Lemma report_compliance_line_witness :
  last (print_report lesser_failures) = Some COMPLIANT
  /\ last (print_report [failed "a" "MUST"]) = Some NOT_COMPLIANT.
Proof.
  split.
  - apply (report_compliance_line lesser_failures).
    intros r [<- | [<- | [<- | []]]] Hl; discriminate Hl.
  - apply (report_compliance_line [failed "a" "MUST"]).
    exists (failed "a" "MUST"). split; [left; reflexivity | split; reflexivity].
Defined.

(** ** What [_emit] appends *)

Lemma emit_appends self id ok msg rs :
  _emit self id ok msg rs = (Ok tt, rs ++ [emitted self id ok msg]).
Proof.
  unfold _emit, emitted, severity_of, Py.get_or.
  destruct (check_defs self !! id) as [entry|]; reflexivity.
Qed.

Lemma emitted_level self id ok msg :
  level_from_registry (check_defs self) (emitted self id ok msg).
Proof.
  unfold level_from_registry, emitted, severity_of. cbn [check_id level].
  destruct (check_defs self !! id) as [entry|]; [|reflexivity].
  destruct (Py.lookup "level" entry); reflexivity.
Qed.

Lemma keeps_ret P {A} (a : A) : keeps P (ret a).
Proof. intros rs H. exact H. Qed.

Lemma keeps_lift P {A} (r : result A) : keeps P (lift r).
Proof. intros rs H. exact H. Qed.

Lemma keeps_bind P {A B} (m : M A) (k : A -> M B) :
  keeps P m -> (forall a, keeps P (k a)) -> keeps P (bind m k).
Proof.
  intros Hm Hk rs H. unfold bind. specialize (Hm rs H).
  destruct (m rs) as [[a|e] rs']; cbn in *; [apply Hk; exact Hm | exact Hm].
Qed.

Lemma keeps_emit (P : CheckResult -> Prop) self id ok msg :
  P (emitted self id ok msg) -> keeps P (_emit self id ok msg).
Proof.
  intros HP rs H. rewrite emit_appends. cbn [snd].
  apply Forall_app. split; [exact H | constructor; [exact HP | constructor]].
Qed.

Ltac keeps_step :=
  first
    [ apply keeps_ret
    | apply keeps_lift
    | apply keeps_emit; apply emitted_level
    | apply keeps_bind; [|intros ?]
    | match goal with
      | |- keeps _ (if ?b then _ else _) => destruct b
      | |- keeps _ (match ?x with _ => _ end) => destruct x
      end ].

Lemma run_keeps_levels self : keeps (level_from_registry (check_defs self)) (run self).
Proof.
  unfold run, _check_top_level_required_fields, _check_endpoint_uniqueness,
    _check_params_uniqueness, _check_method_values, _check_param_locations,
    _check_auth_object, _check_auth_docs_requirement, _check_auth_required_presence,
    _check_response_content_type_support, _check_param_constraints_published,
    _check_agent_rules_consistent_shape.
  cbn zeta.
  repeat keeps_step.
Qed.

(** ** C3: the level of an emitted result *)

(** C3, as the code has it.  Every result that [run] appends carries the
    level the registry gives its check id: the value stored under ["level"]
    in the entry of that id, recognized or not, and ["INFO"] when the id is
    not defined or its entry has no ["level"]; no rule supplies a level. *)
Theorem emitted_level_from_registry (doc checklist : dict) (validator : Validator) :
  __init__ doc checklist = Ok validator ->
  Forall (level_from_registry (check_defs validator)) (snd (run validator [])).
Proof.
  intros _. apply (run_keeps_levels validator []). constructor.
Qed.

(** On the empty document with a checklist that declares one level. *)
Lemma emitted_level_from_registry_witness :
  Forall (level_from_registry critical_defs)
         (snd (run (mkValidator empty_doc critical_checklist critical_defs) [])).
Proof.
  apply (emitted_level_from_registry empty_doc critical_checklist
           (mkValidator empty_doc critical_checklist critical_defs)).
  reflexivity.
Defined.

(** The claim as worded fails on a level that is not recognized: the
    checklist declares level ["CRITICAL"] for the first rule, and the result
    of that rule carries ["CRITICAL"], not ["INFO"]. *)
Lemma unrecognized_level_is_kept :
  exists validator r,
    __init__ empty_doc critical_checklist = Ok validator
    /\ head (snd (run validator [])) = Some r
    /\ check_id r = "impl.top_level.required_fields"%string
    /\ level r = JStr "CRITICAL"
    /\ claimed_level (check_defs validator) (check_id r) = JStr "INFO".
Proof.
  exists (mkValidator empty_doc critical_checklist critical_defs).
  eexists. split; [reflexivity|]. split; [vm_compute; reflexivity|].
  repeat split; vm_compute; reflexivity.
Qed.

(** ** C9: the registry built by [_index_checks] *)

Lemma index_step_entry acc d :
  index_step acc (JObj d)
  = Ok (match Py.get "id" d with JStr i => <[i := d]> acc | _ => acc end).
Proof. unfold index_step. destruct (Py.get "id" d); reflexivity. Qed.

Lemma index_loop checks : forall acc,
  Forall is_entry checks ->
  exists defs,
    foldM index_step checks acc = Ok defs
    /\ forall id, defs !! id
                  = match last_entry id checks with
                    | Some d => Some d
                    | None => acc !! id
                    end.
Proof.
  induction checks as [|item rest IH]; intros acc Hall.
  - exists acc. split; reflexivity.
  - apply Forall_cons in Hall. destruct Hall as [Hitem Hrest].
    destruct item as [| | | | |d]; try discriminate Hitem.
    cbn [foldM]. rewrite index_step_entry. cbn [rbind].
    destruct (IH (match Py.get "id" d with JStr i => <[i := d]> acc | _ => acc end) Hrest)
      as (defs & Hfold & Hlook).
    exists defs. split; [exact Hfold|].
    intros id. rewrite Hlook. cbn [last_entry].
    destruct (last_entry id rest) as [d'|]; [reflexivity|].
    unfold has_id. destruct (Py.get "id" d) as [| | |i| |]; try reflexivity.
    destruct (String.eqb_spec i id) as [->|Hne].
    + apply lookup_insert_eq.
    + apply lookup_insert_ne. exact Hne.
Qed.

Lemma index_loop_skips checks : forall acc,
  Forall is_entry checks ->
  foldM index_step (List.filter has_str_id checks) acc = foldM index_step checks acc.
Proof.
  induction checks as [|item rest IH]; intros acc Hall; [reflexivity|].
  apply Forall_cons in Hall. destruct Hall as [Hitem Hrest].
  destruct item as [| | | | |d]; try discriminate Hitem.
  cbn [List.filter has_str_id].
  destruct (Py.get "id" d) as [| | |i| |] eqn:Hid; cbn [Py.is_str foldM];
    unfold index_step; rewrite Hid; cbn [rbind]; apply IH; exact Hrest.
Qed.

Lemma last_entry_after id before entry after :
  Py.get "id" entry = JStr id ->
  Forall (fun item => has_id id item = false) after ->
  last_entry id (before ++ JObj entry :: after) = Some entry.
Proof.
  intros Hid Hafter.
  assert (Hnone : last_entry id after = None).
  { induction after as [|x after IH]; [reflexivity|].
    apply Forall_cons in Hafter. destruct Hafter as [Hx Hafter].
    cbn [last_entry]. rewrite (IH Hafter).
    destruct x; try reflexivity. rewrite Hx. reflexivity. }
  induction before as [|x before IH].
  - cbn [app last_entry]. rewrite Hnone. unfold has_id. rewrite Hid, String.eqb_refl.
    reflexivity.
  - cbn [app last_entry]. cbn [app] in IH. rewrite IH. reflexivity.
Qed.

(** C9 fails on the code.  The checklist declares
    impl.agent_rules.consistent twice, MUST then SHOULD, and its [checks]
    ends with the number 7: [_index_checks] raises AttributeError at
    [item.get] on that item, so no registry is stored and [main] ends by
    the exception.  Without the last item the registry holds the SHOULD
    entry, the last one written. *)
Theorem redefined_id_beside_number_raises :
  _index_checks trailing_number_checklist = Raise AttributeError
  /\ __init__ complete_doc trailing_number_checklist = Raise AttributeError
  /\ main complete_doc trailing_number_checklist false = Raise AttributeError
  /\ (exists defs,
        _index_checks twice_defined_checklist = Ok defs
        /\ defs !! "impl.agent_rules.consistent"%string = Some should_entry
        /\ severity_of defs "impl.agent_rules.consistent" = JStr "SHOULD").
Proof.
  split; [reflexivity|]. split; [reflexivity|]. split; [reflexivity|].
  exists (<["impl.agent_rules.consistent"%string := should_entry]> ∅).
  split; [vm_compute; reflexivity|]. split; vm_compute; reflexivity.
Qed.

(** X22. When every item of the [checks] sequence is an object,
    [_index_checks] returns a registry that stores, for each id, the last
    entry in sequence order whose [id] is that string, so that an id
    declared two or more times resolves to the level of its last entry;
    entries whose [id] is not a string leave the registry as it is and
    raise nothing. *)
Theorem index_checks_last_wins (checklist : dict) (checks : list json) :
  Py.lookup "checks" checklist = Some (JList checks) ->
  Forall is_entry checks ->
  exists defs,
    _index_checks checklist = Ok defs
    /\ (forall id, defs !! id = last_entry id checks)
    /\ (forall id before entry after,
          checks = before ++ JObj entry :: after ->
          Py.get "id" entry = JStr id ->
          Forall (fun item => has_id id item = false) after ->
          defs !! id = Some entry
          /\ severity_of defs id = Py.get_or "level" (JStr "INFO") entry)
    /\ foldM index_step (List.filter has_str_id checks) ∅ = Ok defs.
Proof.
  intros Hchecks Hall.
  destruct (index_loop checks ∅ Hall) as (defs & Hfold & Hlook).
  assert (Hlast : forall id, defs !! id = last_entry id checks).
  { intros id. rewrite Hlook. destruct (last_entry id checks); [reflexivity|].
    apply lookup_empty. }
  exists defs. split; [|split; [exact Hlast|split]].
  - unfold _index_checks, Py.get_or. rewrite Hchecks. exact Hfold.
  - intros id before entry after -> Hid Hafter.
    assert (Hdef : defs !! id = Some entry).
    { rewrite Hlast. apply last_entry_after; assumption. }
    split; [exact Hdef|].
    unfold severity_of, Py.get_or. rewrite Hdef. reflexivity.
  - rewrite index_loop_skips; assumption.
Qed.

(** Two entries for impl.agent_rules.consistent, MUST then SHOULD, around an
    entry whose id is a number: the registry holds the SHOULD entry. *)
Lemma index_checks_last_wins_witness :
  exists defs,
    _index_checks redefining_checklist = Ok defs
    /\ defs !! "impl.agent_rules.consistent"%string = Some should_entry
    /\ severity_of defs "impl.agent_rules.consistent" = JStr "SHOULD".
Proof.
  destruct (index_checks_last_wins redefining_checklist redefining_checks)
    as (defs & Hidx & _ & Hlast & _).
  - reflexivity.
  - repeat constructor.
  - exists defs. split; [exact Hidx|].
    apply (Hlast _ [JObj must_entry; JObj numbered_entry] should_entry []).
    + reflexivity.
    + reflexivity.
    + constructor.
Defined.

(** ** C5: the auth_object rule *)

Lemma str_in_In s S : str_in s S = true <-> In s S.
Proof.
  unfold str_in. rewrite existsb_exists. split.
  - intros (x & Hx & Heq). apply String.eqb_eq in Heq. subst x. exact Hx.
  - intros H. exists s. split; [exact H | apply String.eqb_refl].
Qed.

Lemma str_in_false s S : str_in s S = false <-> ~ In s S.
Proof.
  rewrite <- str_in_In. destruct (str_in s S); split; intros; congruence.
Qed.

(** C5, as the code has it.  The rule appends nothing when [auth] is absent
    or null; exactly one failing result when [auth] has another value that
    is not an object; exactly one failing result whose message names the
    offending value when [auth] is an object whose [type] is not a string
    among none, api_key, bearer, basic, oauth2; and, when the type is
    bearer or oauth2, exactly one result, which passes if and only if
    [instructions] is a non-empty sequence and [acquire] and [apply] are
    objects.  For the remaining types it appends nothing. *)
Theorem auth_object_cases (self : Validator) (rs : list CheckResult) :
  let auth := Py.get "auth" (doc self) in
  let id := "impl.auth_flow.structured_fields"%string in
  (auth = JNull -> _check_auth_object self rs = (Ok tt, rs))
  /\ (auth <> JNull -> Py.is_dict auth = false ->
      _check_auth_object self rs
      = (Ok tt, rs ++ [emitted self id false "auth exists but is not an object"]))
  /\ (forall a, auth = JObj a ->
      (forall t, Py.get "type" a = JStr t ->
                 ~ In t ["none"; "api_key"; "bearer"; "basic"; "oauth2"]%string) ->
      _check_auth_object self rs
      = (Ok tt, rs ++ [emitted self id false
                         ("auth.type invalid: " +:+ Py.str (Py.get "type" a))]))
  /\ (forall a t, auth = JObj a -> Py.get "type" a = JStr t ->
      t = "bearer"%string \/ t = "oauth2"%string ->
      exists ok msg,
        _check_auth_object self rs = (Ok tt, rs ++ [emitted self id ok msg])
        /\ (ok = true <->
            (exists x l, Py.get "instructions" a = JList (x :: l))
            /\ Py.is_dict (Py.get "acquire" a) = true
            /\ Py.is_dict (Py.get "apply" a) = true))
  /\ (forall a t, auth = JObj a -> Py.get "type" a = JStr t ->
      t = "none"%string \/ t = "api_key"%string \/ t = "basic"%string ->
      _check_auth_object self rs = (Ok tt, rs)).
Proof.
  cbn zeta. unfold _check_auth_object.
  split; [|split; [|split; [|split]]].
  - intros ->. reflexivity.
  - intros Hnull Hdict.
    destruct (Py.get "auth" (doc self)); try discriminate Hdict; try congruence;
      apply emit_appends.
  - intros a -> Htype.
    destruct (Py.get "type" a) as [| | |t| |] eqn:Ht; cbn [Py.is_str negb orb];
      try apply emit_appends.
    specialize (Htype t eq_refl). apply str_in_false in Htype.
    unfold AUTH_TYPES. rewrite Htype. cbn [negb]. apply emit_appends.
  - intros a t -> Ht Hcase. rewrite Ht. cbn [Py.is_str negb orb].
    assert (Hkind : str_in t AUTH_TYPES = true
                    /\ str_in t ["bearer"; "oauth2"]%string = true).
    { destruct Hcase as [-> | ->]; split; reflexivity. }
    destruct Hkind as [-> ->]. cbn [negb].
    eexists. eexists. split; [apply emit_appends|].
    destruct (Py.get "instructions" a) as [| | | |l|]; cbn [andb];
      try (split; [discriminate | intros ((x & l' & Hx) & _); discriminate Hx]).
    destruct l as [|x l]; cbn [length Nat.ltb Nat.leb andb].
    + split; [discriminate | intros ((x & l' & Hx) & _); discriminate Hx].
    + split.
      * intros H. apply andb_true_iff in H. destruct H as [Ha Hb].
        split; [eauto | split; assumption].
      * intros (_ & Ha & Hb). rewrite Ha, Hb. reflexivity.
  - intros a t -> Ht Hcase. rewrite Ht. cbn [Py.is_str negb orb].
    assert (Hkind : str_in t AUTH_TYPES = true
                    /\ str_in t ["bearer"; "oauth2"]%string = false).
    { destruct Hcase as [-> | [-> | ->]]; split; reflexivity. }
    destruct Hkind as [-> ->]. reflexivity.
Qed.

(** [auth: {"type": "bearer"}] alone gives one failing result of
    impl.auth_flow.structured_fields, and the three fields make it pass. *)
Lemma auth_object_cases_witness :
  (exists msg,
     _check_auth_object (mkValidator bearer_doc [] ∅) []
     = (Ok tt, [mkCheckResult "impl.auth_flow.structured_fields" (JStr "INFO") false msg]))
  /\ (exists msg,
     _check_auth_object (mkValidator bearer_full_doc [] ∅) []
     = (Ok tt, [mkCheckResult "impl.auth_flow.structured_fields" (JStr "INFO") true msg])).
Proof.
  split.
  - destruct (auth_object_cases (mkValidator bearer_doc [] ∅) [])
      as (_ & _ & _ & Hb & _).
    destruct (Hb [("type"%string, JStr "bearer")] "bearer"%string eq_refl eq_refl
                 (or_introl eq_refl)) as (ok & msg & Hrun & Hok).
    exists msg. rewrite Hrun. destruct ok; [|reflexivity].
    destruct (proj1 Hok eq_refl) as ((x & l & Hx) & _). discriminate Hx.
  - destruct (auth_object_cases (mkValidator bearer_full_doc [] ∅) [])
      as (_ & _ & _ & Hb & _).
    destruct (Hb _ "bearer"%string eq_refl eq_refl (or_introl eq_refl))
      as (ok & msg & Hrun & Hok).
    exists msg. rewrite Hrun. destruct ok; [reflexivity|].
    assert (false = true) as Habs; [|discriminate Habs].
    apply Hok. split; [|split]; [eexists; eexists; reflexivity | reflexivity | reflexivity].
Defined.

(** The claim as worded fails on [{"auth": null}]: the key is present, its
    value is not an object, and the rule appends nothing. *)
Lemma null_auth_emits_nothing :
  Py.contains "auth" null_auth_doc = true
  /\ Py.is_dict (Py.get "auth" null_auth_doc) = false
  /\ _check_auth_object (mkValidator null_auth_doc [] ∅) [] = (Ok tt, []).
Proof. repeat split. Qed.

(** ** C7: the top_level_required_fields rule *)

Lemma nonblank_string_dec v :
  match v with
  | JStr s => negb (Py.is_empty (Py.strip s))
  | _ => false
  end = true <-> nonblank_string v.
Proof.
  unfold nonblank_string. split.
  - destruct v as [| | |s| |]; try discriminate. intros H. exists s. split; [reflexivity|].
    intros Hs. rewrite Hs in H. discriminate H.
  - intros (s & -> & Hs). destruct (Py.strip s); [congruence | reflexivity].
Qed.

Lemma is_nil_filter_missing (d : dict) (required : list string) :
  is_nil (List.filter (fun k => negb (Py.contains k d)) required) = true
  <-> forall k, In k required -> Py.contains k d = true.
Proof.
  induction required as [|k required IH]; cbn [List.filter].
  - split; [intros _ k [] | reflexivity].
  - destruct (Py.contains k d) eqn:Hk; cbn [negb].
    + rewrite IH. split.
      * intros H k' [<- | Hin]; [exact Hk | apply H; exact Hin].
      * intros H k' Hin. apply H. right. exact Hin.
    + cbn [is_nil]. split; [discriminate|].
      intros H. specialize (H k (or_introl eq_refl)). congruence.
Qed.

(** C7, as the code has it.  The rule appends exactly one result.  It fails
    if and only if one of [aiif_version], [info], [endpoints] is absent, or
    [aiif_version] is not a string that is non-empty after trimming
    whitespace, or [endpoints] is not a sequence, or [info] is not an
    object.  On failure the message is the list of details, which contains
    every absent key and, when [aiif_version] is not such a string, the
    aiif_version complaint. *)
Theorem top_level_required_fields_result (self : Validator) (rs : list CheckResult) :
  let d := doc self in
  exists ok msg,
    _check_top_level_required_fields self rs
    = (Ok tt, rs ++ [emitted self "impl.top_level.required_fields" ok msg])
    /\ (ok = false <->
        Py.contains "aiif_version" d = false
        \/ Py.contains "info" d = false
        \/ Py.contains "endpoints" d = false
        \/ ~ nonblank_string (Py.get "aiif_version" d)
        \/ Py.is_list (Py.get "endpoints" d) = false
        \/ Py.is_dict (Py.get "info" d) = false)
    /\ (ok = true -> msg = "top-level required fields present"%string)
    /\ (ok = false ->
        exists details,
          msg = "missing/invalid top-level fields: " +:+ Py.repr_strs details
          /\ (forall k, In k ["aiif_version"; "info"; "endpoints"]%string ->
                        Py.contains k d = false -> In k details)
          /\ (~ nonblank_string (Py.get "aiif_version" d) ->
              In "aiif_version (must be non-empty string)"%string details)).
Proof.
  cbn zeta. unfold _check_top_level_required_fields. cbn zeta.
  set (required := ["aiif_version"; "info"; "endpoints"]%string).
  set (missing := List.filter (fun k => negb (Py.contains k (doc self))) required).
  set (version_ok := match Py.get "aiif_version" (doc self) with
                     | JStr s => negb (Py.is_empty (Py.strip s))
                     | _ => false
                     end).
  set (ok := is_nil missing && version_ok
             && Py.is_list (Py.get "endpoints" (doc self))
             && Py.is_dict (Py.get "info" (doc self))).
  assert (Hv : version_ok = true <-> nonblank_string (Py.get "aiif_version" (doc self)))
    by apply nonblank_string_dec.
  assert (Hm : is_nil missing = true <-> forall k, In k required -> Py.contains k (doc self) = true)
    by apply is_nil_filter_missing.
  assert (Habsent : forall k, In k required -> Py.contains k (doc self) = false ->
                              is_nil missing = false).
  { intros k Hk Hc. apply not_true_is_false. intros Hn.
    rewrite (proj1 Hm Hn k Hk) in Hc. discriminate Hc. }
  eexists ok, _. split; [apply emit_appends|].
  split; [|split].
  - unfold ok. rewrite !andb_false_iff. split.
    + intros [[[Hmiss | Hver] | Hep] | Hinfo].
      * destruct (Py.contains "aiif_version" (doc self)) eqn:H1; [|tauto].
        destruct (Py.contains "info" (doc self)) eqn:H2; [|tauto].
        destruct (Py.contains "endpoints" (doc self)) eqn:H3; [|tauto].
        assert (is_nil missing = true) as Habs; [|congruence].
        apply Hm. intros k [<- | [<- | [<- | []]]]; assumption.
      * right. right. right. left. rewrite <- Hv. congruence.
      * tauto.
      * tauto.
    + intros [H | [H | [H | [H | [H | H]]]]].
      * left. left. left. apply (Habsent "aiif_version"%string); [cbn; tauto | exact H].
      * left. left. left. apply (Habsent "info"%string); [cbn; tauto | exact H].
      * left. left. left. apply (Habsent "endpoints"%string); [cbn; tauto | exact H].
      * left. left. right. destruct version_ok; [|reflexivity]. tauto.
      * tauto.
      * tauto.
  - intros ->. reflexivity.
  - intros ->. eexists. split; [reflexivity|]. split.
    + intros k Hk Hc. apply in_or_app. left. unfold missing.
      apply filter_In. split; [exact Hk | rewrite Hc; reflexivity].
    + intros Hnb. apply in_or_app. right.
      destruct version_ok; [|left; reflexivity]. tauto.
Qed.

(** A document with only a numeric [aiif_version]: the one result fails and
    its message lists both absent keys and the aiif_version complaint. *)
Lemma top_level_required_fields_result_witness :
  _check_top_level_required_fields (mkValidator numeric_version_doc [] ∅) []
  = (Ok tt,
     [mkCheckResult "impl.top_level.required_fields" (JStr "INFO") false
        "missing/invalid top-level fields: ['info', 'endpoints', 'aiif_version (must be non-empty string)']"]).
Proof.
  destruct (top_level_required_fields_result (mkValidator numeric_version_doc [] ∅) [])
    as (ok & msg & Hrun & _ & _ & _).
  rewrite Hrun. vm_compute in Hrun. injection Hrun as <- <-. reflexivity.
Defined.

(** The claim as worded fails on an [aiif_version] made of whitespace: all
    three keys are present, [aiif_version] is a non-empty string,
    [endpoints] is a sequence and [info] an object, and the result fails. *)
Lemma blank_version_fails :
  Py.contains "aiif_version" blank_version_doc = true
  /\ Py.contains "info" blank_version_doc = true
  /\ Py.contains "endpoints" blank_version_doc = true
  /\ Py.get "aiif_version" blank_version_doc = JStr " "
  /\ Py.is_list (Py.get "endpoints" blank_version_doc) = true
  /\ Py.is_dict (Py.get "info" blank_version_doc) = true
  /\ _check_top_level_required_fields (mkValidator blank_version_doc [] ∅) []
     = (Ok tt,
        [mkCheckResult "impl.top_level.required_fields" (JStr "INFO") false
           "missing/invalid top-level fields: ['aiif_version (must be non-empty string)']"]).
Proof. repeat split. Qed.

(** ** C8: the param_constraints_published rule *)

Lemma constraint_loop params : forall t c,
  let ps := flat_map (fun p => match p with JObj pd => [pd] | _ => [] end) params in
  fold_left constraint_step params (t, c)
  = (t + length ps, c + length (List.filter declares_constraint ps)).
Proof.
  cbn zeta. induction params as [|p params IH]; intros t c.
  - cbn. pair_eq.
  - cbn [fold_left flat_map]. destruct p as [| | | | |pd]; cbn [constraint_step app];
      try apply IH.
    rewrite IH. cbn [fst snd length List.filter].
    change (existsb (fun field => Py.contains field pd) CONSTRAINT_FIELDS)
      with (declares_constraint pd).
    destruct (declares_constraint pd); cbn [length]; pair_eq.
Qed.

Lemma constraints_loop endpoints : forall t c,
  let ps := flat_map object_params endpoints in
  fold_left constraints_step endpoints (t, c)
  = (t + length ps, c + length (List.filter declares_constraint ps)).
Proof.
  cbn zeta. induction endpoints as [|ep endpoints IH]; intros t c.
  - cbn. pair_eq.
  - cbn [fold_left flat_map]. rewrite List.filter_app, !length_app.
    destruct ep as [| | | | |e]; cbn [constraints_step object_params];
      try (rewrite IH; cbn; pair_eq).
    destruct (Py.get_or "params" (JList []) e) as [| | | |params|];
      try (rewrite IH; cbn; pair_eq).
    rewrite constraint_loop, IH. pair_eq.
Qed.

(** C8. The rule appends exactly one result.  When the document has no
    object-shaped param in any endpoint it passes with the message that
    constraint publication is not applicable; otherwise it passes if and
    only if some param declares one of minimum, maximum, min_length,
    max_length, pattern, format, and in both cases the message starts with
    the number of params that declare a constraint, a slash, and the
    number of params. *)
Theorem param_constraints_published_result (self : Validator) (rs : list CheckResult) :
  let params := doc_params self in
  let total := length params in
  let constrained := length (List.filter declares_constraint params) in
  exists ok msg,
    _check_param_constraints_published self rs
    = (Ok tt, rs ++ [emitted self "impl.params.constraints_published" ok msg])
    /\ (total = 0 ->
        ok = true
        /\ msg = "no params defined; constraint publication not applicable"%string)
    /\ (total <> 0 ->
        (ok = true <-> exists p, In p params /\ declares_constraint p = true)
        /\ msg = Py.of_nat constrained +:+ "/" +:+ Py.of_nat total
                 +:+ " params publish machine-readable constraints").
Proof.
  cbn zeta. unfold _check_param_constraints_published. cbn zeta.
  rewrite constraints_loop. cbn [fst snd Nat.add]. fold (doc_params self).
  set (params := doc_params self).
  destruct (length params) as [|n] eqn:Hlen; cbn [Nat.eqb].
  - eexists _, _. split; [apply emit_appends|]. split; [tauto | congruence].
  - eexists _, _. split; [apply emit_appends|]. split; [discriminate|].
    intros _. split; [|reflexivity].
    rewrite Nat.ltb_lt. split.
    + intros Hpos.
      destruct (List.filter declares_constraint params) as [|p l] eqn:Hf;
        [cbn in Hpos; lia|].
      assert (Hin : In p (List.filter declares_constraint params))
        by (rewrite Hf; left; reflexivity).
      apply filter_In in Hin. exists p. exact Hin.
    + intros (p & Hin & Hp).
      assert (Hin' : In p (List.filter declares_constraint params))
        by (apply filter_In; split; assumption).
      destruct (List.filter declares_constraint params); [destruct Hin' | cbn; lia].
Qed.

(** One constrained param among ten: the rule passes and reports 1/10. *)
Lemma param_constraints_published_result_witness :
  _check_param_constraints_published (mkValidator ten_params_doc [] ∅) []
  = (Ok tt,
     [mkCheckResult "impl.params.constraints_published" (JStr "INFO") true
        "1/10 params publish machine-readable constraints"]).
Proof.
  destruct (param_constraints_published_result (mkValidator ten_params_doc [] ∅) [])
    as (ok & msg & Hrun & _ & Hsome).
  destruct (Hsome ltac:(discriminate)) as (Hok & ->).
  rewrite Hrun.
  replace ok with true; [reflexivity|].
  symmetry. apply Hok. eexists. split; [left; reflexivity | reflexivity].
Defined.

(** ** C10: a document whose [endpoints] is absent or not a sequence *)

Lemma contains_false_get k d : Py.contains k d = false -> Py.get k d = JNull.
Proof.
  unfold Py.contains, Py.get, Py.get_or. destruct (Py.lookup k d); [discriminate|reflexivity].
Qed.

Lemma endpoints_of_not_list self :
  Py.is_list (Py.get "endpoints" (doc self)) = false -> endpoints_of self = [].
Proof.
  unfold endpoints_of. destruct (Py.get "endpoints" (doc self)); try reflexivity.
  discriminate.
Qed.

Lemma endpoints_of_empty self :
  Py.lookup "endpoints" (doc self) = Some (JList []) -> endpoints_of self = [].
Proof.
  intros H. unfold endpoints_of, Py.get, Py.get_or. rewrite H. reflexivity.
Qed.

Lemma defined_eq self self' id :
  check_defs self' = check_defs self -> defined self' id = defined self id.
Proof. intros H. unfold defined. rewrite H. reflexivity. Qed.

Section NoEndpoints.

Variables (self : Validator) (rs : list CheckResult).
Hypothesis no_endpoints : endpoints_of self = [].

Lemma endpoint_uniqueness_no_endpoints :
  _check_endpoint_uniqueness self rs
  = (Ok tt, rs ++ [emitted self "impl.endpoint_name.unique" true
                     "endpoint names are unique"]
               ++ [emitted self "impl.method_path.unique" true
                     "(method,path) pairs are unique"]).
Proof.
  unfold _check_endpoint_uniqueness. cbn zeta. rewrite no_endpoints.
  cbn [fold_left dup_names dup_method_paths]. unfold bind.
  rewrite emit_appends, emit_appends, <- app_assoc. reflexivity.
Qed.

Lemma params_uniqueness_no_endpoints :
  _check_params_uniqueness self rs
  = (Ok tt, rs ++ [emitted self "impl.params.unique_by_name_location" true
                     "params are unique by (name,location)"]).
Proof.
  unfold _check_params_uniqueness. cbn zeta. rewrite no_endpoints.
  unfold bind, lift. cbn [foldM]. apply emit_appends.
Qed.

Lemma method_values_no_endpoints :
  _check_method_values self rs
  = (Ok tt, if defined self "impl.endpoint.method.allowed"
            then rs ++ [emitted self "impl.endpoint.method.allowed" true
                          "all methods are allowed"]
            else rs).
Proof.
  unfold _check_method_values. cbn zeta. rewrite no_endpoints. cbn [fold_left].
  destruct (defined self "impl.endpoint.method.allowed");
    [apply emit_appends | reflexivity].
Qed.

Lemma param_locations_no_endpoints :
  _check_param_locations self rs
  = (Ok tt, if defined self "impl.params.location.allowed"
            then rs ++ [emitted self "impl.params.location.allowed" true
                          "all parameter locations are valid"]
            else rs).
Proof.
  unfold _check_param_locations. cbn zeta. rewrite no_endpoints.
  unfold bind, lift. cbn [foldM].
  destruct (defined self "impl.params.location.allowed");
    [apply emit_appends | reflexivity].
Qed.

Lemma auth_required_presence_no_endpoints :
  _check_auth_required_presence self rs
  = (Ok tt, rs ++ [emitted self "impl.endpoint.auth_required_supported" true
                     "all endpoints include auth_required"]).
Proof.
  unfold _check_auth_required_presence. cbn zeta. rewrite no_endpoints.
  cbn [fold_left]. apply emit_appends.
Qed.

Lemma response_content_type_no_endpoints :
  _check_response_content_type_support self rs
  = (Ok tt, rs ++ [emitted self "impl.endpoint.response_content_type_supported" true
                     "all endpoints include response_content_type"]).
Proof.
  unfold _check_response_content_type_support. cbn zeta. rewrite no_endpoints.
  cbn [fold_left]. apply emit_appends.
Qed.

Lemma param_constraints_no_endpoints :
  _check_param_constraints_published self rs
  = (Ok tt, rs ++ [emitted self "impl.params.constraints_published" true
                     "no params defined; constraint publication not applicable"]).
Proof.
  unfold _check_param_constraints_published. cbn zeta. rewrite no_endpoints.
  cbn [fold_left fst Nat.eqb]. apply emit_appends.
Qed.

End NoEndpoints.

Lemma top_level_fails_without_sequence self rs :
  Py.is_list (Py.get "endpoints" (doc self)) = false ->
  exists msg,
    _check_top_level_required_fields self rs
    = (Ok tt, rs ++ [emitted self "impl.top_level.required_fields" false msg]).
Proof.
  intros Hnl. unfold _check_top_level_required_fields. cbn zeta.
  rewrite Hnl, andb_false_r. cbn [andb]. eexists. apply emit_appends.
Qed.

(** C10. When [endpoints] is absent or is not a sequence, each of the seven
    per-endpoint rules gives what it gives on a document with the same
    registry whose [endpoints] is the empty sequence: the two uniqueness
    results of endpoint_uniqueness, params_uniqueness and the two presence
    rules pass, method_values and param_locations pass when the checklist
    defines their id and are silent otherwise, param_constraints_published
    passes as not applicable, and top_level_required_fields is the rule
    that fails. *)
Theorem non_sequence_endpoints_as_empty (self self' : Validator) (rs : list CheckResult) :
  Py.contains "endpoints" (doc self) = false
  \/ Py.is_list (Py.get "endpoints" (doc self)) = false ->
  Py.lookup "endpoints" (doc self') = Some (JList []) ->
  check_defs self' = check_defs self ->
  (_check_endpoint_uniqueness self rs = _check_endpoint_uniqueness self' rs
   /\ _check_params_uniqueness self rs = _check_params_uniqueness self' rs
   /\ _check_method_values self rs = _check_method_values self' rs
   /\ _check_param_locations self rs = _check_param_locations self' rs
   /\ _check_auth_required_presence self rs = _check_auth_required_presence self' rs
   /\ _check_response_content_type_support self rs
      = _check_response_content_type_support self' rs
   /\ _check_param_constraints_published self rs
      = _check_param_constraints_published self' rs)
  /\ (_check_endpoint_uniqueness self rs
      = (Ok tt, rs ++ [emitted self "impl.endpoint_name.unique" true
                         "endpoint names are unique"]
                   ++ [emitted self "impl.method_path.unique" true
                         "(method,path) pairs are unique"])
      /\ _check_params_uniqueness self rs
         = (Ok tt, rs ++ [emitted self "impl.params.unique_by_name_location" true
                            "params are unique by (name,location)"])
      /\ _check_method_values self rs
         = (Ok tt, if defined self "impl.endpoint.method.allowed"
                   then rs ++ [emitted self "impl.endpoint.method.allowed" true
                                 "all methods are allowed"]
                   else rs)
      /\ _check_param_locations self rs
         = (Ok tt, if defined self "impl.params.location.allowed"
                   then rs ++ [emitted self "impl.params.location.allowed" true
                                 "all parameter locations are valid"]
                   else rs)
      /\ _check_auth_required_presence self rs
         = (Ok tt, rs ++ [emitted self "impl.endpoint.auth_required_supported" true
                            "all endpoints include auth_required"])
      /\ _check_response_content_type_support self rs
         = (Ok tt, rs ++ [emitted self "impl.endpoint.response_content_type_supported" true
                            "all endpoints include response_content_type"])
      /\ _check_param_constraints_published self rs
         = (Ok tt, rs ++ [emitted self "impl.params.constraints_published" true
                            "no params defined; constraint publication not applicable"]))
  /\ (exists msg,
        _check_top_level_required_fields self rs
        = (Ok tt, rs ++ [emitted self "impl.top_level.required_fields" false msg])).
Proof.
  intros Hbad Hempty Hdefs.
  assert (Hnl : Py.is_list (Py.get "endpoints" (doc self)) = false).
  { destruct Hbad as [Habs | Hnl]; [|exact Hnl].
    rewrite (contains_false_get _ _ Habs). reflexivity. }
  pose proof (endpoints_of_not_list self Hnl) as He.
  pose proof (endpoints_of_empty self' Hempty) as He'.
  assert (Hemitted : forall id ok msg, emitted self' id ok msg = emitted self id ok msg).
  { intros id ok msg. unfold emitted. rewrite Hdefs. reflexivity. }
  split; [|split].
  - rewrite !endpoint_uniqueness_no_endpoints, !params_uniqueness_no_endpoints,
      !method_values_no_endpoints, !param_locations_no_endpoints,
      !auth_required_presence_no_endpoints, !response_content_type_no_endpoints,
      !param_constraints_no_endpoints by assumption.
    rewrite !Hemitted, !(defined_eq self self') by exact Hdefs.
    repeat split.
  - rewrite endpoint_uniqueness_no_endpoints, params_uniqueness_no_endpoints,
      method_values_no_endpoints, param_locations_no_endpoints,
      auth_required_presence_no_endpoints, response_content_type_no_endpoints,
      param_constraints_no_endpoints by assumption.
    repeat split.
  - apply top_level_fails_without_sequence. exact Hnl.
Qed.

(** A document whose [endpoints] is a string, against the same document
    with an empty endpoint list. *)
Lemma non_sequence_endpoints_as_empty_witness :
  _check_params_uniqueness (mkValidator string_endpoints_doc [] ∅) []
  = _check_params_uniqueness (mkValidator no_endpoints_doc [] ∅) []
  /\ _check_param_constraints_published (mkValidator string_endpoints_doc [] ∅) []
     = (Ok tt, [mkCheckResult "impl.params.constraints_published" (JStr "INFO") true
                  "no params defined; constraint publication not applicable"])
  /\ exists msg,
       _check_top_level_required_fields (mkValidator string_endpoints_doc [] ∅) []
       = (Ok tt, [mkCheckResult "impl.top_level.required_fields" (JStr "INFO") false msg]).
Proof.
  destruct (non_sequence_endpoints_as_empty
              (mkValidator string_endpoints_doc [] ∅)
              (mkValidator no_endpoints_doc [] ∅) [])
    as ((_ & Hsame & _) & (_ & _ & _ & _ & _ & _ & Hpcp) & Htop).
  - right. reflexivity.
  - reflexivity.
  - reflexivity.
  - split; [exact Hsame | split; [exact Hpcp | exact Htop]].
Defined.

(** ** C4: malformed fragments that raise *)

(** C4 fails on the code.  A checklist entry that is not an object makes
    [_index_checks] raise AttributeError, so the validator is never built;
    a param whose [name] is a list makes [_check_params_uniqueness] raise
    TypeError when the pair (name, location) is hashed, after the first two
    rules have appended their three results.  In both cases [main] ends by
    the exception and prints no report. *)
Theorem malformed_fragments_raise :
  _index_checks number_entry_checklist = Raise AttributeError
  /\ main no_endpoints_doc number_entry_checklist false = Raise AttributeError
  /\ __init__ list_name_doc empty_checklist
     = Ok (mkValidator list_name_doc empty_checklist ∅)
  /\ fst (_check_params_uniqueness (mkValidator list_name_doc empty_checklist ∅) [])
     = Raise TypeError
  /\ fst (run (mkValidator list_name_doc empty_checklist ∅) []) = Raise TypeError
  /\ length (snd (run (mkValidator list_name_doc empty_checklist ∅) [])) = 3
  /\ main list_name_doc empty_checklist false = Raise TypeError.
Proof. repeat split; vm_compute; reflexivity. Qed.

(** A method that always returns. *)
Lemma returns_emit self id ok msg : returns (_emit self id ok msg).
Proof. intros rs. rewrite emit_appends. reflexivity. Qed.

Lemma returns_ret : returns (ret tt).
Proof. intros rs. reflexivity. Qed.

Lemma returns_seq (m k : M unit) : returns m -> returns k -> returns (bind m (fun _ => k)).
Proof.
  intros Hm Hk rs. unfold bind. specialize (Hm rs).
  destruct (m rs) as [[[]|e] rs']; cbn [fst] in Hm; [apply Hk | discriminate Hm].
Qed.

Ltac returns_step :=
  first
    [ apply returns_ret
    | apply returns_emit
    | apply returns_seq
    | match goal with
      | |- returns (if ?b then _ else _) => destruct b
      | |- returns (match ?x with _ => _ end) => destruct x
      end ].

(** The nine rules that hash nothing return on every document and
    registry; only [_check_params_uniqueness] and [_check_param_locations]
    can raise. *)
Lemma nine_rules_return (self : Validator) :
  returns (_check_top_level_required_fields self)
  /\ returns (_check_endpoint_uniqueness self)
  /\ returns (_check_method_values self)
  /\ returns (_check_auth_object self)
  /\ returns (_check_auth_docs_requirement self)
  /\ returns (_check_auth_required_presence self)
  /\ returns (_check_response_content_type_support self)
  /\ returns (_check_param_constraints_published self)
  /\ returns (_check_agent_rules_consistent_shape self).
Proof.
  unfold _check_top_level_required_fields, _check_endpoint_uniqueness,
    _check_method_values, _check_auth_object, _check_auth_docs_requirement,
    _check_auth_required_presence, _check_response_content_type_support,
    _check_param_constraints_published, _check_agent_rules_consistent_shape.
  cbn zeta.
  repeat match goal with |- _ /\ _ => split end; repeat returns_step.
Qed.

Lemma foldM_returns {S A} (body : S -> A -> result S) (l : list A) :
  (forall s x, In x l -> exists s', body s x = Ok s') ->
  forall s, exists s', foldM body l s = Ok s'.
Proof.
  induction l as [|x l IH]; intros Hbody s.
  - exists s. reflexivity.
  - destruct (Hbody s x (or_introl eq_refl)) as (s1 & Hs1).
    cbn [foldM]. rewrite Hs1. cbn [rbind].
    apply IH. intros s2 y Hy. apply Hbody. right. exact Hy.
Qed.

Lemma hashable_hash v : hashable v = true -> Py.hash v = Ok tt.
Proof. destruct v; cbn; congruence. Qed.

Lemma param_unique_step_returns ep_name st p :
  param_hashable p = true -> exists st', param_unique_step ep_name st p = Ok st'.
Proof.
  destruct p as [| | | | |pd]; cbn [param_hashable param_unique_step]; eauto.
  intros H. apply andb_true_iff in H. destruct H as [Hn Hl].
  unfold key_in. cbn [fst snd].
  rewrite (hashable_hash _ Hn), (hashable_hash _ Hl). cbn [rbind]. eauto.
Qed.

Lemma location_step_returns ep_name bad p :
  param_hashable p = true -> exists bad', location_step ep_name bad p = Ok bad'.
Proof.
  destruct p as [| | | | |pd]; cbn [param_hashable location_step]; eauto.
  intros H. apply andb_true_iff in H. destruct H as [_ Hl].
  unfold Py.in_str_set. rewrite (hashable_hash _ Hl). cbn [rbind]. eauto.
Qed.

Lemma params_unique_step_returns violations ep :
  endpoint_hashable ep = true -> exists v', params_unique_step violations ep = Ok v'.
Proof.
  destruct ep as [| | | | |e]; cbn [endpoint_hashable params_unique_step]; eauto.
  destruct (Py.get_or "params" (JList []) e) as [| | | |params|]; eauto.
  intros H. rewrite forallb_forall in H.
  destruct (foldM_returns (param_unique_step (Py.get_or "name" (JStr "<unknown>") e)) params)
    with (s := (@nil (json * json), violations)) as (st & Hst).
  - intros s x Hx. apply param_unique_step_returns. apply H. exact Hx.
  - rewrite Hst. cbn [rbind]. eauto.
Qed.

Lemma locations_step_returns bad ep :
  endpoint_hashable ep = true -> exists bad', locations_step bad ep = Ok bad'.
Proof.
  destruct ep as [| | | | |e]; cbn [endpoint_hashable locations_step]; eauto.
  destruct (Py.get_or "params" (JList []) e) as [| | | |params|]; eauto.
  intros H. rewrite forallb_forall in H.
  apply foldM_returns. intros s x Hx. apply location_step_returns. apply H. exact Hx.
Qed.

Lemma locations_loop_completes self :
  doc_hashable self = true ->
  exists bad, foldM locations_step (endpoints_of self) [] = Ok bad.
Proof.
  intros H. unfold doc_hashable in H. rewrite forallb_forall in H.
  apply foldM_returns. intros s x Hx. apply locations_step_returns. apply H. exact Hx.
Qed.

(** The two remaining rules return when no param has a list or an object
    as [name] or [location], and then so does [run]. *)
Lemma hashing_rules_return (self : Validator) :
  doc_hashable self = true ->
  returns (_check_params_uniqueness self)
  /\ returns (_check_param_locations self)
  /\ returns (run self).
Proof.
  intros H.
  assert (Hpu : returns (_check_params_uniqueness self)).
  { intros rs. unfold _check_params_uniqueness. cbn zeta. unfold bind, lift.
    destruct (foldM_returns params_unique_step (endpoints_of self)) with (s := @nil string)
      as (v & Hv).
    - intros s x Hx. apply params_unique_step_returns.
      unfold doc_hashable in H. rewrite forallb_forall in H. apply H. exact Hx.
    - rewrite Hv. rewrite emit_appends. reflexivity. }
  assert (Hpl : returns (_check_param_locations self)).
  { intros rs. unfold _check_param_locations. cbn zeta. unfold bind, lift.
    destruct (locations_loop_completes self H) as (bad & ->).
    destruct (defined self "impl.params.location.allowed");
      [rewrite emit_appends|]; reflexivity. }
  split; [exact Hpu | split; [exact Hpl|]].
  destruct (nine_rules_return self) as (H1 & H2 & H4 & H6 & H7 & H8 & H9 & H10 & H11).
  unfold run. repeat (apply returns_seq; [assumption|]). assumption.
Qed.

(** ** C6: rules that emit only when the checklist defines their id *)

(** C6 fails on the code for param_locations.  The checklist defines
    impl.params.location.allowed, and on a document with a param whose
    [location] is a list the rule raises TypeError at the membership test
    and appends no result; with a checklist that omits the id it raises
    too.  In [run] the exception comes from [_check_params_uniqueness]
    already, and the results hold no result of the rule. *)
Theorem param_locations_raises_when_defined :
  __init__ list_location_doc locations_checklist
  = Ok (mkValidator list_location_doc locations_checklist locations_defs)
  /\ defined (mkValidator list_location_doc locations_checklist locations_defs)
       "impl.params.location.allowed" = true
  /\ _check_param_locations
       (mkValidator list_location_doc locations_checklist locations_defs) []
     = (Raise TypeError, [])
  /\ _check_param_locations (mkValidator list_location_doc empty_checklist ∅) []
     = (Raise TypeError, [])
  /\ fst (run (mkValidator list_location_doc locations_checklist locations_defs) [])
     = Raise TypeError
  /\ map check_id
         (snd (run (mkValidator list_location_doc locations_checklist locations_defs) []))
     = ["impl.top_level.required_fields"; "impl.endpoint_name.unique";
        "impl.method_path.unique"]%string.
Proof. repeat split; vm_compute; reflexivity. Qed.

(** method_values appends one result when its id is defined and nothing
    otherwise, and never raises. *)
Lemma method_values_emits_iff_defined self rs :
  exists ok msg,
    _check_method_values self rs
    = (Ok tt, if defined self "impl.endpoint.method.allowed"
              then rs ++ [emitted self "impl.endpoint.method.allowed" ok msg]
              else rs).
Proof.
  unfold _check_method_values. cbn zeta.
  destruct (defined self "impl.endpoint.method.allowed").
  - eexists _, _. apply emit_appends.
  - exists true, EmptyString. reflexivity.
Qed.

(** auth_docs_requirement appends one passing result when its id is
    defined and nothing otherwise, and never raises. *)
Lemma auth_docs_emits_iff_defined self rs :
  exists msg,
    _check_auth_docs_requirement self rs
    = (Ok tt, if defined self "impl.auth_docs.required_for_protected"
              then rs ++ [emitted self "impl.auth_docs.required_for_protected" true msg]
              else rs).
Proof.
  unfold _check_auth_docs_requirement. cbn zeta.
  destruct (defined self "impl.auth_docs.required_for_protected"); cbn [negb].
  - match goal with |- context [if ?b then _ else _] => destruct b end;
      eexists; apply emit_appends.
  - exists EmptyString. reflexivity.
Qed.

(** param_locations does the same whenever its loop completes. *)
Lemma param_locations_emits_iff_defined self rs bad :
  foldM locations_step (endpoints_of self) [] = Ok bad ->
  exists ok msg,
    _check_param_locations self rs
    = (Ok tt, if defined self "impl.params.location.allowed"
              then rs ++ [emitted self "impl.params.location.allowed" ok msg]
              else rs).
Proof.
  intros Hloop. unfold _check_param_locations. cbn zeta. unfold bind, lift.
  rewrite Hloop. destruct (defined self "impl.params.location.allowed").
  - eexists _, _. apply emit_appends.
  - exists true, EmptyString. reflexivity.
Qed.

Lemma same_outcomes_ret : same_outcomes (ret tt) (ret tt).
Proof. intros rs rs' H. split; [reflexivity | exact H]. Qed.

Lemma same_outcomes_emit self self' id ok msg :
  same_outcomes (_emit self id ok msg) (_emit self' id ok msg).
Proof.
  intros rs rs' H. rewrite !emit_appends. cbn [fst snd]. split; [reflexivity|].
  rewrite !map_app, H. reflexivity.
Qed.

Lemma same_outcomes_bind {A} (r : result A) (k k' : A -> M unit) :
  (forall a, same_outcomes (k a) (k' a)) ->
  same_outcomes (bind (lift r) k) (bind (lift r) k').
Proof.
  intros Hk rs rs' H. unfold bind, lift. destruct r as [a|e].
  - apply Hk. exact H.
  - split; [reflexivity | exact H].
Qed.

Lemma same_outcomes_seq (m m' k k' : M unit) :
  same_outcomes m m' -> same_outcomes k k' ->
  same_outcomes (bind m (fun _ => k)) (bind m' (fun _ => k')).
Proof.
  intros Hm Hk rs rs' H. unfold bind. destruct (Hm rs rs' H) as [Hf Hs].
  destruct (m rs) as [[[]|e] r1], (m' rs') as [[[]|e'] r1']; cbn [fst snd] in *;
    try discriminate Hf.
  - apply Hk. exact Hs.
  - split; [exact Hf | exact Hs].
Qed.

Ltac same_outcomes_step :=
  first
    [ apply same_outcomes_ret
    | apply same_outcomes_emit
    | apply same_outcomes_bind; intros ?
    | apply same_outcomes_seq
    | match goal with
      | |- same_outcomes (if ?b then _ else _) _ => destruct b
      | |- same_outcomes (match ?x with _ => _ end) _ => destruct x
      end ].

(** Each of the other eight rules raises alike and appends results with the
    same check ids, verdicts and messages under any two registries: whether
    it emits does not depend on the checklist. *)
Lemma unconditional_rules_ignore_registry (d cl cl' : dict) (defs defs' : gmap string dict) :
  let self := mkValidator d cl defs in
  let self' := mkValidator d cl' defs' in
  same_outcomes (_check_top_level_required_fields self)
                (_check_top_level_required_fields self')
  /\ same_outcomes (_check_endpoint_uniqueness self) (_check_endpoint_uniqueness self')
  /\ same_outcomes (_check_params_uniqueness self) (_check_params_uniqueness self')
  /\ same_outcomes (_check_auth_object self) (_check_auth_object self')
  /\ same_outcomes (_check_auth_required_presence self)
                   (_check_auth_required_presence self')
  /\ same_outcomes (_check_response_content_type_support self)
                   (_check_response_content_type_support self')
  /\ same_outcomes (_check_param_constraints_published self)
                   (_check_param_constraints_published self')
  /\ same_outcomes (_check_agent_rules_consistent_shape self)
                   (_check_agent_rules_consistent_shape self').
Proof.
  cbn zeta.
  unfold _check_top_level_required_fields, _check_endpoint_uniqueness,
    _check_params_uniqueness, _check_auth_object, _check_auth_required_presence,
    _check_response_content_type_support, _check_param_constraints_published,
    _check_agent_rules_consistent_shape, endpoints_of.
  cbn [doc]. cbn zeta.
  repeat match goal with |- _ /\ _ => split end; repeat same_outcomes_step.
Qed.

(** * Further properties of the code *)

(** ** [self.results] is append-only *)

Lemma appends_ret {A} (a : A) : appends (ret a) (Ok a) [].
Proof. intros rs. unfold ret. rewrite app_nil_r. reflexivity. Qed.

Lemma appends_emit self id ok msg :
  appends (_emit self id ok msg) (Ok tt) [emitted self id ok msg].
Proof. intros rs. apply emit_appends. Qed.

Lemma appends_lift_bind {A B} (r : result A) (k : A -> M B) :
  (forall a, exists r' new, appends (k a) r' new) ->
  exists r' new, appends (bind (lift r) k) r' new.
Proof.
  intros Hk. destruct r as [a|e].
  - destruct (Hk a) as (r' & new & H). exists r', new. intros rs. apply H.
  - exists (Raise e), []. intros rs. unfold bind, lift. rewrite app_nil_r. reflexivity.
Qed.

Lemma appends_seq {A B} (m : M A) (k : M B) r1 new1 r2 new2 :
  appends m r1 new1 -> appends k r2 new2 ->
  appends (bind m (fun _ => k))
          (match r1 with Ok _ => r2 | Raise e => Raise e end)
          (match r1 with Ok _ => new1 ++ new2 | Raise _ => new1 end).
Proof.
  intros Hm Hk rs. unfold bind. rewrite Hm. destruct r1 as [a|e]; [|reflexivity].
  rewrite Hk, app_assoc. reflexivity.
Qed.

Lemma appends_seq_ex {A B} (m : M A) (k : M B) :
  (exists r new, appends m r new) -> (exists r new, appends k r new) ->
  exists r new, appends (bind m (fun _ => k)) r new.
Proof.
  intros (r1 & new1 & H1) (r2 & new2 & H2).
  eexists _, _. apply (appends_seq _ _ _ _ _ _ H1 H2).
Qed.

Ltac appends_step :=
  first
    [ solve [eexists _, _; apply appends_ret]
    | solve [eexists _, _; apply appends_emit]
    | apply appends_lift_bind; intros ?
    | apply appends_seq_ex
    | match goal with
      | |- exists r new, appends (if ?b then _ else _) r new => destruct b
      | |- exists r new, appends (match ?x with _ => _ end) r new => destruct x
      end ].

Lemma run_appends self : exists r new, appends (run self) r new.
Proof.
  unfold run, _check_top_level_required_fields, _check_endpoint_uniqueness,
    _check_params_uniqueness, _check_method_values, _check_param_locations,
    _check_auth_object, _check_auth_docs_requirement, _check_auth_required_presence,
    _check_response_content_type_support, _check_param_constraints_published,
    _check_agent_rules_consistent_shape.
  cbn zeta.
  repeat appends_step.
Qed.

(** X10. [run] only appends to [self.results]: started on any results, it
    leaves them in place as a prefix, and what it appends and whether it
    raises do not depend on them; this holds when a rule raises too. *)
Theorem run_append_only (self : Validator) (rs : list CheckResult) :
  run self rs = (fst (run self []), rs ++ snd (run self [])).
Proof.
  destruct (run_appends self) as (r & new & H).
  rewrite (H rs), (H []). reflexivity.
Qed.

(** ** The results of a complete run *)

Lemma emits_ids_emit self id ok msg : emits_ids (_emit self id ok msg) [id].
Proof. eexists. split; [apply appends_emit | reflexivity]. Qed.

Lemma emits_ids_ret : emits_ids (ret tt) [].
Proof. eexists. split; [apply appends_ret | reflexivity]. Qed.

Lemma emits_ids_seq (m k : M unit) ids1 ids2 :
  emits_ids m ids1 -> emits_ids k ids2 -> emits_ids (bind m (fun _ => k)) (ids1 ++ ids2).
Proof.
  intros (new1 & H1 & <-) (new2 & H2 & <-).
  exists (new1 ++ new2). split; [|apply map_app].
  apply (appends_seq _ _ _ _ _ _ H1 H2).
Qed.

Lemma emits_ids_lift {A} (r : result A) (a : A) (k : A -> M unit) ids :
  r = Ok a -> emits_ids (k a) ids -> emits_ids (bind (lift r) k) ids.
Proof.
  intros -> (new & H & <-). exists new. split; [|reflexivity].
  intros rs. apply H.
Qed.

Lemma auth_object_emits_ids self :
  emits_ids (_check_auth_object self)
    (if auth_object_emits (doc self) then ["impl.auth_flow.structured_fields"%string] else []).
Proof.
  unfold _check_auth_object, auth_object_emits. cbn zeta.
  destruct (Py.get "auth" (doc self)) as [| | | | |a];
    try apply emits_ids_emit; try apply emits_ids_ret.
  destruct (Py.get "type" a) as [| | |t| |]; cbn [Py.is_str negb orb];
    try apply emits_ids_emit.
  destruct (str_in t AUTH_TYPES) eqn:Hin; cbn [negb].
  - destruct (str_in t ["bearer"; "oauth2"]%string) eqn:Hb.
    + replace (str_in t ["none"; "api_key"; "basic"]%string) with false;
        [apply emits_ids_emit|].
      symmetry. apply str_in_false. apply str_in_In in Hb.
      cbn in Hb |- *. intros H.
      destruct Hb as [<- | [<- | []]];
        repeat (destruct H as [H | H]; [discriminate H|]); exact H.
    + replace (str_in t ["none"; "api_key"; "basic"]%string) with true;
        [apply emits_ids_ret|].
      symmetry. apply str_in_In. apply str_in_In in Hin. apply str_in_false in Hb.
      cbn in Hin, Hb |- *. tauto.
  - replace (str_in t ["none"; "api_key"; "basic"]%string) with false;
      [apply emits_ids_emit|].
    symmetry. apply str_in_false. apply str_in_false in Hin.
    cbn in Hin |- *. tauto.
Qed.

(** X11. On a document in which no param has a list or an object as [name]
    or [location], [run] returns, and the check ids of its results are, in
    this order: the four ids of the first three rules, the ids of
    method_values, param_locations and auth_docs_requirement where the
    checklist defines them, with the id of auth_object between the last two
    when that rule has something to report, and the four ids of the last
    four rules; so a run yields between eight and twelve results. *)
Theorem run_result_ids (self : Validator) :
  doc_hashable self = true ->
  fst (run self []) = Ok tt
  /\ map check_id (snd (run self [])) = run_ids self
  /\ 8 <= length (snd (run self [])) <= 12.
Proof.
  intros Hh.
  assert (Hrun : emits_ids (run self) (run_ids self)).
  { change (run_ids self)
      with (["impl.top_level.required_fields"%string]
            ++ ["impl.endpoint_name.unique"%string; "impl.method_path.unique"%string]
            ++ ["impl.params.unique_by_name_location"%string]
            ++ (if defined self "impl.endpoint.method.allowed"
                then ["impl.endpoint.method.allowed"%string] else [])
            ++ (if defined self "impl.params.location.allowed"
                then ["impl.params.location.allowed"%string] else [])
            ++ (if auth_object_emits (doc self)
                then ["impl.auth_flow.structured_fields"%string] else [])
            ++ (if defined self "impl.auth_docs.required_for_protected"
                then ["impl.auth_docs.required_for_protected"%string] else [])
            ++ ["impl.endpoint.auth_required_supported"%string]
            ++ ["impl.endpoint.response_content_type_supported"%string]
            ++ ["impl.params.constraints_published"%string]
            ++ ["impl.agent_rules.consistent"%string]).
    unfold run.
    repeat apply emits_ids_seq.
    - apply emits_ids_emit.
    - unfold _check_endpoint_uniqueness. cbn zeta.
      apply (emits_ids_seq _ _ [_] [_]); apply emits_ids_emit.
    - unfold _check_params_uniqueness. cbn zeta.
      destruct (foldM_returns params_unique_step (endpoints_of self)) with (s := @nil string)
        as (v & Hv).
      + intros s x Hx. apply params_unique_step_returns.
        unfold doc_hashable in Hh. rewrite forallb_forall in Hh. apply Hh. exact Hx.
      + apply (emits_ids_lift _ v _ _ Hv). apply emits_ids_emit.
    - unfold _check_method_values. cbn zeta.
      destruct (defined self "impl.endpoint.method.allowed");
        [apply emits_ids_emit | apply emits_ids_ret].
    - unfold _check_param_locations. cbn zeta.
      destruct (locations_loop_completes self Hh) as (bad & Hbad).
      apply (emits_ids_lift _ bad _ _ Hbad).
      destruct (defined self "impl.params.location.allowed");
        [apply emits_ids_emit | apply emits_ids_ret].
    - apply auth_object_emits_ids.
    - unfold _check_auth_docs_requirement. cbn zeta.
      destruct (defined self "impl.auth_docs.required_for_protected"); cbn [negb];
        [|apply emits_ids_ret].
      match goal with |- context [if ?b then _ else _] => destruct b end;
        apply emits_ids_emit.
    - apply emits_ids_emit.
    - apply emits_ids_emit.
    - unfold _check_param_constraints_published. cbn zeta.
      match goal with |- context [if ?b then _ else _] => destruct b end;
        apply emits_ids_emit.
    - unfold _check_agent_rules_consistent_shape. cbn zeta.
      destruct (Py.get "agent_rules" (doc self)); apply emits_ids_emit. }
  destruct Hrun as (new & Happ & Hids).
  rewrite (Happ []). cbn [fst snd app].
  split; [reflexivity | split; [exact Hids|]].
  rewrite <- (length_map check_id), Hids. unfold run_ids.
  rewrite !length_app.
  destruct (defined self "impl.endpoint.method.allowed"),
    (defined self "impl.params.location.allowed"),
    (auth_object_emits (doc self)),
    (defined self "impl.auth_docs.required_for_protected"); cbn [length]; lia.
Qed.

(** The complete document against the checklist that defines every id:
    eleven results, auth_object being silent. *)
Lemma run_result_ids_witness :
  map check_id
    (snd (run (mkValidator complete_doc all_must_checklist
                 (match _index_checks all_must_checklist with
                  | Ok defs => defs
                  | Raise _ => ∅
                  end)) []))
  = ["impl.top_level.required_fields"; "impl.endpoint_name.unique";
     "impl.method_path.unique"; "impl.params.unique_by_name_location";
     "impl.endpoint.method.allowed"; "impl.params.location.allowed";
     "impl.auth_docs.required_for_protected";
     "impl.endpoint.auth_required_supported";
     "impl.endpoint.response_content_type_supported";
     "impl.params.constraints_published"; "impl.agent_rules.consistent"]%string.
Proof.
  destruct (run_result_ids
              (mkValidator complete_doc all_must_checklist
                 (match _index_checks all_must_checklist with
                  | Ok defs => defs
                  | Raise _ => ∅
                  end))) as (_ & Hids & _).
  - reflexivity.
  - rewrite Hids. vm_compute. reflexivity.
Defined.

(** ** The endpoint_uniqueness rule *)

Lemma occurrences_cons `{EqDecision K} (k x : K) (l : list K) :
  occurrences k (x :: l) = (if bool_decide (x = k) then 1 else 0) + occurrences k l.
Proof. unfold occurrences. cbn [List.filter]. destruct (bool_decide (x = k)); reflexivity. Qed.

Lemma occurrences_pos `{EqDecision K} (k : K) (l : list K) :
  0 < occurrences k l <-> In k l.
Proof.
  induction l as [|x l IH]; [cbn; split; [lia | tauto]|].
  rewrite occurrences_cons. cbn [In]. destruct (bool_decide_reflect (x = k)) as [->|Hne].
  - split; [tauto | lia].
  - rewrite <- IH. cbn [Nat.add]. tauto.
Qed.

Lemma NoDup_occurrences `{EqDecision K} (l : list K) :
  List.NoDup l <-> forall k, occurrences k l <= 1.
Proof.
  induction l as [|x l IH].
  - split; [intros _ k; cbn; lia | constructor].
  - split.
    + intros Hnd k. apply List.NoDup_cons_iff in Hnd. destruct Hnd as [Hx Hnd].
      rewrite occurrences_cons. pose proof (proj1 IH Hnd k) as Hk.
      destruct (bool_decide_reflect (x = k)) as [->|Hne]; [|cbn; exact Hk].
      assert (occurrences k l = 0); [|lia].
      destruct (occurrences k l) eqn:Ho; [reflexivity|].
      exfalso. apply Hx. apply occurrences_pos. lia.
    + intros Hocc. apply List.NoDup_cons_iff. split.
      * intros Hin. apply occurrences_pos in Hin. specialize (Hocc x).
        rewrite occurrences_cons, bool_decide_eq_true_2 in Hocc by reflexivity. lia.
      * apply IH. intros k. specialize (Hocc k). rewrite occurrences_cons in Hocc. lia.
Qed.

(** After the loop the first set holds what was seen and the second what
    was seen at least twice. *)
Lemma note_loop `{Countable K} (l : list K) : forall (sd : gset K * gset K) (k : K),
  (k ∈ fst (fold_left note l sd) <-> k ∈ fst sd \/ In k l)
  /\ (k ∈ snd (fold_left note l sd)
      <-> k ∈ snd sd \/ (k ∈ fst sd /\ In k l) \/ 2 <= occurrences k l).
Proof.
  induction l as [|x l IH]; intros sd k.
  - cbn. split; [tauto|]. split; [tauto | intros [?|[[_ []]|?]]; [assumption | lia]].
  - cbn [fold_left]. destruct (IH (note sd x) k) as [IH1 IH2].
    rewrite IH1, IH2, occurrences_cons. unfold note. cbn [fst snd In]. clear IH IH1 IH2.
    pose proof (occurrences_pos k l) as Hpos.
    assert (E1 : k ∈ ({[x]} ∪ fst sd : gset K) <-> x = k \/ k ∈ fst sd).
    { rewrite elem_of_union, elem_of_singleton. split; intros [?|?]; auto. }
    assert (E2 : k ∈ (if bool_decide (x ∈ fst sd) then {[x]} ∪ snd sd else snd sd)
                 <-> (x = k /\ k ∈ fst sd) \/ k ∈ snd sd).
    { destruct (bool_decide_reflect (x ∈ fst sd)) as [Hin|Hnin].
      - rewrite elem_of_union, elem_of_singleton. split.
        + intros [->|?]; auto.
        + intros [[-> _]|?]; auto.
      - split; [auto|]. intros [[-> ?]|?]; [contradiction | assumption]. }
    rewrite E1, E2. clear E1 E2.
    destruct (bool_decide_reflect (x = k)) as [->|Hne]; cbn [Nat.add].
    + split; [tauto|]. split.
      * intros [[[_ ?]|?]|[[[_|?] Hl]|?]]; try tauto.
        -- right. right. apply Hpos in Hl. lia.
        -- right. right. lia.
      * intros [?|[[? _]|Hocc]]; try tauto.
        right. left. split; [left; reflexivity | apply Hpos; lia].
    + split; [tauto|]. split.
      * intros [[[? _]|?]|[[[?|?] ?]|?]]; tauto.
      * intros [?|[[? [?|?]]|?]]; tauto.
Qed.

Lemma uniqueness_loop endpoints : forall st,
  let st' := fold_left uniqueness_step endpoints st in
  (names st', dup_names st')
  = fold_left note (endpoint_names endpoints) (names st, dup_names st)
  /\ (method_paths st', dup_method_paths st')
     = fold_left note (endpoint_method_paths endpoints)
         (method_paths st, dup_method_paths st).
Proof.
  cbn zeta. induction endpoints as [|ep endpoints IH]; intros st; [split; reflexivity|].
  cbn [fold_left endpoint_names endpoint_method_paths flat_map].
  fold (endpoint_names endpoints). fold (endpoint_method_paths endpoints).
  destruct (IH (uniqueness_step st ep)) as [IH1 IH2]. rewrite IH1, IH2. clear IH IH1 IH2.
  destruct ep as [| | | | |e]; cbn [uniqueness_step app]; [split; reflexivity ..|].
  destruct (Py.get "name" e) as [| | |n| |], (Py.get "method" e) as [| | |m| |],
    (Py.get "path" e) as [| | |p| |]; cbn [app fold_left names dup_names method_paths
      dup_method_paths]; split; reflexivity.
Qed.

Lemma size_zero_empty `{Countable K} (X : gset K) : (size X =? 0) = true <-> forall k, k ∉ X.
Proof.
  rewrite Nat.eqb_eq. split.
  - intros Hs k. apply size_empty_inv in Hs. set_solver.
  - intros Hk. apply size_empty_iff. set_solver.
Qed.

Lemma no_duplicates_flagged `{Countable K} (l : list K) :
  (size (snd (fold_left note l (∅, ∅))) =? 0) = true <-> List.NoDup l.
Proof.
  rewrite size_zero_empty, NoDup_occurrences. split.
  - intros Hnone k. destruct (le_lt_dec (occurrences k l) 1) as [Hle|Hgt]; [exact Hle|].
    exfalso. apply (Hnone k). apply note_loop. right. right. lia.
  - intros Hocc k Hk. apply note_loop in Hk. specialize (Hocc k).
    destruct Hk as [Hk | [[Hk _] | Hk]]; [set_solver | set_solver | lia].
Qed.

(** X1. The endpoint_uniqueness rule always appends exactly two results and
    never raises.  The first, impl.endpoint_name.unique, passes if and only
    if the names that are strings, taken over the object-shaped endpoints,
    are pairwise distinct; the second, impl.method_path.unique, passes if
    and only if the (method, path) pairs in which both are strings are
    pairwise distinct.  Endpoints that are not objects and names, methods
    and paths that are not strings are left out of both tests. *)
Theorem endpoint_uniqueness_result (self : Validator) (rs : list CheckResult) :
  exists ok1 msg1 ok2 msg2,
    _check_endpoint_uniqueness self rs
    = (Ok tt, rs ++ [emitted self "impl.endpoint_name.unique" ok1 msg1;
                     emitted self "impl.method_path.unique" ok2 msg2])
    /\ (ok1 = true <-> List.NoDup (endpoint_names (endpoints_of self)))
    /\ (ok2 = true <-> List.NoDup (endpoint_method_paths (endpoints_of self))).
Proof.
  unfold _check_endpoint_uniqueness. cbn zeta.
  destruct (uniqueness_loop (endpoints_of self) (mkUniq ∅ ∅ ∅ ∅)) as [H1 H2].
  cbn zeta in H1, H2. cbn [names dup_names method_paths dup_method_paths] in H1, H2.
  eexists _, _, _, _. split; [|split].
  - unfold bind. rewrite emit_appends, emit_appends, <- app_assoc. reflexivity.
  - rewrite <- no_duplicates_flagged, <- H1. reflexivity.
  - rewrite <- no_duplicates_flagged, <- H2. reflexivity.
Qed.

#[local] Instance str_le_total : Total Py.str_le.
Proof. intros a b. unfold Py.str_le. apply String.leb_total. Qed.

#[local] Instance pair_le_total : Total Py.pair_le.
Proof.
  intros a b. unfold Py.pair_le.
  rewrite (String.compare_antisym (fst a) (fst b)).
  destruct (String.compare (fst b) (fst a)); cbn [CompOpp]; auto.
  apply String.leb_total.
Qed.

(** The sorted listing of a set: sorted, without repetition, with the
    members of the set. *)
Lemma sorted_elements `{Countable K} (R : K -> K -> Prop)
    {Rdec : forall x y, Decision (R x y)} `{!Total R} (X : gset K) :
  Sorted R (merge_sort R (elements X))
  /\ List.NoDup (merge_sort R (elements X))
  /\ forall k, In k (merge_sort R (elements X)) <-> k ∈ X.
Proof.
  split; [apply Sorted_merge_sort; assumption|]. split.
  - apply NoDup_ListNoDup. rewrite merge_sort_Permutation. apply NoDup_elements.
  - intros k. rewrite <- list_elem_of_In, merge_sort_Permutation. apply elem_of_elements.
Qed.

Lemma flagged_twice `{Countable K} (l : list K) (k : K) :
  k ∈ snd (fold_left note l (∅, ∅)) <-> 2 <= occurrences k l.
Proof.
  split.
  - intros Hk. apply note_loop in Hk. cbn [fst snd] in Hk.
    destruct Hk as [Hk | [[Hk _] | Hk]]; [| |exact Hk]; apply not_elem_of_empty in Hk;
      contradiction.
  - intros Hk. apply note_loop. right. right. exact Hk.
Qed.

(** X2. The messages of the endpoint_uniqueness rule.  A passing result
    carries the fixed text; a failing one lists, after the fixed prefix,
    the offending names (respectively pairs) in ascending order, each
    once, and these are exactly the names (pairs) that occur at least twice
    among the endpoints. *)
Theorem endpoint_uniqueness_messages (self : Validator) (rs : list CheckResult) :
  let names := endpoint_names (endpoints_of self) in
  let pairs := endpoint_method_paths (endpoints_of self) in
  exists ok1 msg1 ok2 msg2,
    _check_endpoint_uniqueness self rs
    = (Ok tt, rs ++ [emitted self "impl.endpoint_name.unique" ok1 msg1;
                     emitted self "impl.method_path.unique" ok2 msg2])
    /\ (ok1 = true -> msg1 = "endpoint names are unique"%string)
    /\ (ok1 = false ->
        exists dups,
          msg1 = "duplicate endpoint names: " +:+ Py.repr_strs dups
          /\ Sorted Py.str_le dups /\ List.NoDup dups
          /\ forall n, In n dups <-> 2 <= occurrences n names)
    /\ (ok2 = true -> msg2 = "(method,path) pairs are unique"%string)
    /\ (ok2 = false ->
        exists dups,
          msg2 = "duplicate (method,path) pairs: " +:+ repr_pairs dups
          /\ Sorted Py.pair_le dups /\ List.NoDup dups
          /\ forall k, In k dups <-> 2 <= occurrences k pairs).
Proof.
  cbn zeta. unfold _check_endpoint_uniqueness. cbn zeta.
  destruct (uniqueness_loop (endpoints_of self) (mkUniq ∅ ∅ ∅ ∅)) as [H1 H2].
  cbn zeta in H1, H2. cbn [names dup_names method_paths dup_method_paths] in H1, H2.
  set (st := fold_left uniqueness_step (endpoints_of self) (mkUniq ∅ ∅ ∅ ∅)) in *.
  assert (Hd1 : dup_names st = snd (fold_left note (endpoint_names (endpoints_of self)) (∅, ∅)))
    by (rewrite <- H1; reflexivity).
  assert (Hd2 : dup_method_paths st
                = snd (fold_left note (endpoint_method_paths (endpoints_of self)) (∅, ∅)))
    by (rewrite <- H2; reflexivity).
  eexists _, _, _, _. split; [|split; [|split; [|split]]].
  - unfold bind. rewrite emit_appends, emit_appends, <- app_assoc. reflexivity.
  - intros ->. reflexivity.
  - intros ->. eexists. split; [reflexivity|].
    destruct (sorted_elements Py.str_le (Rdec := Py.str_le_dec) (dup_names st)) as (Hs & Hn & Hm).
    split; [exact Hs | split; [exact Hn|]].
    intros n. unfold Py.sorted_strs. rewrite Hm, Hd1. apply flagged_twice.
  - intros ->. reflexivity.
  - intros ->. eexists. split; [reflexivity|].
    destruct (sorted_elements Py.pair_le (Rdec := Py.pair_le_dec) (dup_method_paths st)) as (Hs & Hn & Hm).
    split; [exact Hs | split; [exact Hn|]].
    intros k. unfold Py.sorted_pairs. rewrite Hm, Hd2. apply flagged_twice.
Qed.

(** ** The params_uniqueness rule *)

Lemma foldM_raises {S A} (body : S -> A -> result S) (ok : A -> bool) (e : exn)
    (l : list A) :
  (forall s x, In x l -> ok x = true -> exists s', body s x = Ok s') ->
  (forall s x, In x l -> ok x = false -> body s x = Raise e) ->
  forallb ok l = false ->
  forall s, foldM body l s = Raise e.
Proof.
  induction l as [|x l IH]; intros Hok Hbad Hall s; [discriminate Hall|].
  cbn [forallb] in Hall. cbn [foldM]. destruct (ok x) eqn:Hx.
  - destruct (Hok s x (or_introl eq_refl) Hx) as (s' & ->). cbn [rbind].
    apply IH; [| |exact Hall].
    + intros s2 y Hy. apply Hok. right. exact Hy.
    + intros s2 y Hy. apply Hbad. right. exact Hy.
  - rewrite (Hbad s x (or_introl eq_refl) Hx). reflexivity.
Qed.

Lemma hash_unhashable v : hashable v = false -> Py.hash v = Raise TypeError.
Proof. destruct v; cbn; congruence. Qed.

Lemma param_unique_step_raises ep_name st p :
  param_hashable p = false -> param_unique_step ep_name st p = Raise TypeError.
Proof.
  destruct p as [| | | | |pd]; cbn [param_hashable param_unique_step]; try discriminate.
  intros H. unfold key_in. cbn [fst snd].
  destruct (hashable (Py.get "name" pd)) eqn:Hn; cbn [andb] in H.
  - rewrite (hashable_hash _ Hn), (hash_unhashable _ H). reflexivity.
  - rewrite (hash_unhashable _ Hn). reflexivity.
Qed.

Lemma params_unique_step_raises violations ep :
  endpoint_hashable ep = false -> params_unique_step violations ep = Raise TypeError.
Proof.
  destruct ep as [| | | | |e]; cbn [endpoint_hashable params_unique_step]; try discriminate.
  destruct (Py.get_or "params" (JList []) e) as [| | | |params|]; try discriminate.
  intros H.
  rewrite (foldM_raises _ param_hashable TypeError params); [reflexivity| | |exact H].
  - intros s x _ Hx. apply param_unique_step_returns. exact Hx.
  - intros s x _ Hx. apply param_unique_step_raises. exact Hx.
Qed.

(** X3. The params_uniqueness rule raises exactly when some object-shaped
    param of an object-shaped endpoint has a list or an object as [name] or
    as [location]: then it raises TypeError and appends nothing, and
    otherwise it returns. *)
Theorem params_uniqueness_raises_iff (self : Validator) (rs : list CheckResult) :
  (fst (_check_params_uniqueness self rs) = Ok tt <-> doc_hashable self = true)
  /\ (_check_params_uniqueness self rs = (Raise TypeError, rs)
      <-> doc_hashable self = false).
Proof.
  unfold _check_params_uniqueness. cbn zeta. unfold bind, lift.
  destruct (doc_hashable self) eqn:Hh.
  - destruct (foldM_returns params_unique_step (endpoints_of self)) with (s := @nil string)
      as (v & Hv).
    { intros s x Hx. apply params_unique_step_returns.
      unfold doc_hashable in Hh. rewrite forallb_forall in Hh. apply Hh. exact Hx. }
    rewrite Hv, emit_appends. cbn [fst]. split; split; try reflexivity; discriminate.
  - rewrite (foldM_raises _ endpoint_hashable TypeError (endpoints_of self)).
    + cbn [fst]. split; split; try reflexivity; discriminate.
    + intros s x _ Hx. apply params_unique_step_returns. exact Hx.
    + intros s x _ Hx. apply params_unique_step_raises. exact Hx.
    + exact Hh.
Qed.

Lemma eqb_sym a b : Py.eqb a b = Py.eqb b a.
Proof.
  destruct a, b; cbn; try reflexivity;
    first [apply Z.eqb_sym | apply String.eqb_sym | idtac].
  destruct b, b0; reflexivity.
Qed.

Lemma key_eqb_sym a b : key_eqb a b = key_eqb b a.
Proof. unfold key_eqb. rewrite (eqb_sym (fst a)), (eqb_sym (snd a)). reflexivity. Qed.

Lemma repeated_keys_nil ks : forall seen,
  repeated_keys seen ks = []
  <-> keys_unique ks = true /\ forall k, In k ks -> existsb (key_eqb k) seen = false.
Proof.
  induction ks as [|k rest IH]; intros seen.
  - cbn. split; [intros _; split; [reflexivity | intros k []] | reflexivity].
  - cbn [repeated_keys keys_unique]. split.
    + intros H. apply app_eq_nil in H. destruct H as [Hk Hrest].
      apply IH in Hrest. destruct Hrest as [Hu Hseen].
      assert (Hks : existsb (key_eqb k) seen = false)
        by (destruct (existsb (key_eqb k) seen); [discriminate Hk | reflexivity]).
      split.
      * rewrite Hu, andb_true_r. apply negb_true_iff.
        apply not_true_is_false. intros Hex. apply existsb_exists in Hex.
        destruct Hex as (k' & Hin & Heq). specialize (Hseen k' Hin).
        cbn [existsb] in Hseen. rewrite key_eqb_sym, Heq in Hseen. discriminate Hseen.
      * intros k' [<- | Hin]; [exact Hks|].
        specialize (Hseen k' Hin). cbn [existsb] in Hseen.
        apply orb_false_iff in Hseen. tauto.
    + intros [Hu Hseen]. apply andb_true_iff in Hu. destruct Hu as [Hk Hu].
      apply negb_true_iff in Hk.
      rewrite (Hseen k (or_introl eq_refl)). cbn [app]. apply IH. split; [exact Hu|].
      intros k' Hin. cbn [existsb]. rewrite (Hseen k' (or_intror Hin)), orb_false_r.
      rewrite key_eqb_sym. apply not_true_is_false. intros Heq.
      assert (existsb (key_eqb k) rest = true) as Hex; [|congruence].
      apply existsb_exists. exists k'. split; assumption.
Qed.

Lemma param_unique_loop ep_name params : forall seen violations,
  forallb param_hashable params = true ->
  let ks := map (fun pd => (Py.get "name" pd, Py.get "location" pd))
                (flat_map (fun p => match p with JObj pd => [pd] | _ => [] end) params) in
  exists seen',
    foldM (param_unique_step ep_name) params (seen, violations)
    = Ok (seen',
          violations
          ++ map (fun k => Py.str ep_name +:+ ":" +:+ Py.repr_pair (fst k) (snd k))
                 (repeated_keys seen ks)).
Proof.
  cbn zeta. induction params as [|p params IH]; intros seen violations Hall.
  - exists seen. cbn. rewrite app_nil_r. reflexivity.
  - cbn [forallb] in Hall. apply andb_true_iff in Hall. destruct Hall as [Hp Hall].
    cbn [foldM flat_map].
    destruct p as [| | | | |pd]; cbn [param_unique_step rbind app]; try apply IH; try exact Hall.
    cbn [param_hashable] in Hp. apply andb_true_iff in Hp. destruct Hp as [Hn Hl].
    unfold key_in. cbn [fst snd].
    rewrite (hashable_hash _ Hn), (hashable_hash _ Hl). cbn [rbind map repeated_keys].
    change (existsb (fun k => Py.eqb (Py.get "name" pd) (fst k)
                              && Py.eqb (Py.get "location" pd) (snd k)) seen)
      with (existsb (key_eqb (Py.get "name" pd, Py.get "location" pd)) seen).
    destruct (IH ((Py.get "name" pd, Py.get "location" pd) :: seen)
                 (if existsb (key_eqb (Py.get "name" pd, Py.get "location" pd)) seen
                  then violations
                       ++ [Py.str ep_name +:+ ":"
                           +:+ Py.repr_pair (Py.get "name" pd) (Py.get "location" pd)]
                  else violations) Hall) as (seen' & Hfold).
    exists seen'. rewrite Hfold.
    destruct (existsb (key_eqb (Py.get "name" pd, Py.get "location" pd)) seen);
      cbn [app map fst snd]; [rewrite <- app_assoc|]; reflexivity.
Qed.

Lemma params_unique_loop endpoints : forall violations,
  forallb endpoint_hashable endpoints = true ->
  foldM params_unique_step endpoints violations
  = Ok (violations ++ flat_map endpoint_violations endpoints).
Proof.
  induction endpoints as [|ep endpoints IH]; intros violations Hall.
  - cbn. rewrite app_nil_r. reflexivity.
  - cbn [forallb] in Hall. apply andb_true_iff in Hall. destruct Hall as [Hep Hall].
    cbn [foldM flat_map].
    assert (Hstep : params_unique_step violations ep
                    = Ok (violations ++ endpoint_violations ep)).
    { destruct ep as [| | | | |e]; cbn [params_unique_step endpoint_violations];
        try (rewrite app_nil_r; reflexivity).
      unfold param_keys, object_params. cbn [endpoint_hashable] in Hep.
      destruct (Py.get_or "params" (JList []) e) as [| | | |params|];
        try (cbn; rewrite app_nil_r; reflexivity).
      destruct (param_unique_loop (Py.get_or "name" (JStr "<unknown>") e) params []
                  violations Hep) as (seen' & ->).
      reflexivity. }
    rewrite Hstep. cbn [rbind]. rewrite IH by exact Hall.
    rewrite <- app_assoc. reflexivity.
Qed.

Lemma endpoint_violations_nil ep :
  endpoint_violations ep = [] <-> keys_unique (param_keys ep) = true.
Proof.
  destruct ep as [| | | | |e]; cbn [endpoint_violations];
    try (cbn; split; reflexivity).
  split.
  - intros H. apply map_eq_nil in H. apply repeated_keys_nil in H. tauto.
  - intros H. replace (repeated_keys [] (param_keys (JObj e))) with (@nil (json * json));
      [reflexivity|].
    symmetry. apply repeated_keys_nil. split; [exact H | reflexivity].
Qed.

(** X4. On a document in which no param has a list or an object as [name]
    or [location], the params_uniqueness rule appends exactly one result,
    which passes if and only if, within each object-shaped endpoint, no two
    object-shaped params have equal (name, location) pairs; the pairs of
    different endpoints are never compared. *)
Theorem params_uniqueness_result (self : Validator) (rs : list CheckResult) :
  doc_hashable self = true ->
  exists ok msg,
    _check_params_uniqueness self rs
    = (Ok tt, rs ++ [emitted self "impl.params.unique_by_name_location" ok msg])
    /\ (ok = true
        <-> Forall (fun ep => keys_unique (param_keys ep) = true) (endpoints_of self)).
Proof.
  intros Hh. unfold _check_params_uniqueness. cbn zeta. unfold bind, lift.
  rewrite params_unique_loop by exact Hh. cbn [app].
  eexists _, _. split; [apply emit_appends|].
  rewrite Nat.eqb_eq, length_zero_iff_nil.
  induction (endpoints_of self) as [|ep l IH]; [split; [constructor | reflexivity]|].
  cbn [flat_map]. split.
  - intros H. apply app_eq_nil in H. destruct H as [Hep Hl].
    constructor; [apply endpoint_violations_nil; exact Hep | apply IH; exact Hl].
  - intros H. apply Forall_cons in H. destruct H as [Hep Hl].
    apply endpoint_violations_nil in Hep. rewrite Hep. apply IH. exact Hl.
Qed.

(** The third param repeats the first: the one result fails. *)
Lemma params_uniqueness_result_witness :
  exists msg,
    _check_params_uniqueness (mkValidator repeated_param_doc [] ∅) []
    = (Ok tt, [mkCheckResult "impl.params.unique_by_name_location" (JStr "INFO") false msg]).
Proof.
  destruct (params_uniqueness_result (mkValidator repeated_param_doc [] ∅) [] eq_refl)
    as (ok & msg & Hrun & Hok).
  exists msg. rewrite Hrun. destruct ok; [|reflexivity].
  pose proof (proj1 Hok eq_refl) as H. apply Forall_cons in H. destruct H as [H _].
  discriminate H.
Defined.

(** ** The method_values and param_locations rules *)

Lemma method_loop endpoints : forall bad,
  (fold_left method_step endpoints bad = [] <->
   bad = []
   /\ Forall (fun e => method_allowed e = true)
        (flat_map (fun ep => match ep with JObj e => [e] | _ => [] end) endpoints)).
Proof.
  induction endpoints as [|ep endpoints IH]; intros bad.
  - cbn. split; [intros ->; split; [reflexivity | constructor] | tauto].
  - cbn [fold_left flat_map]. rewrite IH.
    destruct ep as [| | | | |e]; cbn [method_step app]; try reflexivity.
    rewrite Forall_cons. unfold method_allowed.
    destruct (Py.get "method" e) as [| | |m| |]; cbn [Py.is_str negb orb];
      try (split; [intros [H _]; destruct bad; discriminate H
                  | intros [_ [H _]]; discriminate H]).
    change (str_in m METHODS) with (str_in m ["GET"; "POST"; "PUT"; "PATCH"; "DELETE"]%string).
    destruct (str_in m ["GET"; "POST"; "PUT"; "PATCH"; "DELETE"]%string); cbn [negb].
    + tauto.
    + split; [intros [H _]; destruct bad; discriminate H
             | intros [_ [H _]]; discriminate H].
Qed.

(** X5. The method_values rule never raises.  When the checklist defines
    impl.endpoint.method.allowed it appends exactly one result, which
    passes if and only if the [method] of every object-shaped endpoint is
    one of the strings GET, POST, PUT, PATCH, DELETE; a missing method or
    one that is not a string counts as a violation. *)
Theorem method_values_result (self : Validator) (rs : list CheckResult) :
  defined self "impl.endpoint.method.allowed" = true ->
  exists ok msg,
    _check_method_values self rs
    = (Ok tt, rs ++ [emitted self "impl.endpoint.method.allowed" ok msg])
    /\ (ok = true <-> Forall (fun e => method_allowed e = true) (object_endpoints self)).
Proof.
  intros Hdef. unfold _check_method_values. cbn zeta. rewrite Hdef.
  eexists _, _. split; [apply emit_appends|].
  rewrite Nat.eqb_eq, length_zero_iff_nil, method_loop. unfold object_endpoints. tauto.
Qed.

Lemma location_step_returns' ep_name bad p :
  location_hashable p = true ->
  location_step ep_name bad p
  = Ok (bad ++ match p with
               | JObj pd =>
                   if location_allowed pd then []
                   else [Py.str ep_name +:+ ":"
                         +:+ Py.str (Py.get_or "name" (JStr "<unknown>") pd)
                         +:+ ":" +:+ Py.str (Py.get "location" pd)]
               | _ => []
               end).
Proof.
  destruct p as [| | | | |pd]; cbn [location_hashable location_step];
    try (intros _; rewrite app_nil_r; reflexivity).
  intros Hl. unfold Py.in_str_set, location_allowed.
  rewrite (hashable_hash _ Hl). cbn [rbind].
  destruct (Py.get "location" pd) as [| | |loc| |]; cbn [negb]; try reflexivity.
  change (existsb (String.eqb loc) PARAM_LOCATIONS)
    with (str_in loc ["path"; "query"; "body"]%string).
  destruct (str_in loc ["path"; "query"; "body"]%string); cbn [negb];
    [rewrite app_nil_r|]; reflexivity.
Qed.

Lemma location_step_raises ep_name bad p :
  location_hashable p = false -> location_step ep_name bad p = Raise TypeError.
Proof.
  destruct p as [| | | | |pd]; cbn [location_hashable location_step]; try discriminate.
  intros Hl. unfold Py.in_str_set. rewrite (hash_unhashable _ Hl). reflexivity.
Qed.

Lemma location_loop ep_name params : forall bad,
  forallb location_hashable params = true ->
  exists bad',
    foldM (location_step ep_name) params bad = Ok bad'
    /\ (bad' = [] <->
        bad = []
        /\ Forall (fun pd => location_allowed pd = true)
             (flat_map (fun p => match p with JObj pd => [pd] | _ => [] end) params)).
Proof.
  induction params as [|p params IH]; intros bad Hall.
  - exists bad. cbn. split; [reflexivity|]. split; [intros ->; split; [reflexivity|constructor] | tauto].
  - cbn [forallb] in Hall. apply andb_true_iff in Hall. destruct Hall as [Hp Hall].
    cbn [foldM flat_map]. rewrite (location_step_returns' _ _ _ Hp). cbn [rbind].
    destruct (IH (bad ++ match p with
                         | JObj pd =>
                             if location_allowed pd then []
                             else [Py.str ep_name +:+ ":"
                                   +:+ Py.str (Py.get_or "name" (JStr "<unknown>") pd)
                                   +:+ ":" +:+ Py.str (Py.get "location" pd)]
                         | _ => []
                         end) Hall) as (bad' & Hfold & Hnil).
    exists bad'. split; [exact Hfold|]. rewrite Hnil.
    destruct p as [| | | | |pd]; cbn [app]; rewrite ?app_nil_r; try reflexivity.
    rewrite Forall_cons. destruct (location_allowed pd).
    + rewrite app_nil_r. tauto.
    + split; [intros [H _]; destruct bad; discriminate H
             | intros [_ [H _]]; discriminate H].
Qed.

Lemma locations_loop endpoints : forall bad,
  forallb (params_all location_hashable) endpoints = true ->
  exists bad',
    foldM locations_step endpoints bad = Ok bad'
    /\ (bad' = [] <->
        bad = []
        /\ Forall (fun pd => location_allowed pd = true) (flat_map object_params endpoints)).
Proof.
  induction endpoints as [|ep endpoints IH]; intros bad Hall.
  - exists bad. cbn. split; [reflexivity|]. split; [intros ->; split; [reflexivity|constructor] | tauto].
  - cbn [forallb] in Hall. apply andb_true_iff in Hall. destruct Hall as [Hep Hall].
    cbn [foldM flat_map].
    assert (Hstep : exists bad1,
              locations_step bad ep = Ok bad1
              /\ (bad1 = [] <->
                  bad = [] /\ Forall (fun pd => location_allowed pd = true) (object_params ep))).
    { destruct ep as [| | | | |e]; cbn [locations_step object_params];
        try (exists bad; split; [reflexivity|]; split;
             [intros ->; split; [reflexivity|constructor] | tauto]).
      cbn [params_all] in Hep.
      destruct (Py.get_or "params" (JList []) e) as [| | | |params|];
        try (exists bad; split; [reflexivity|]; split;
             [intros ->; split; [reflexivity|constructor] | tauto]).
      apply location_loop. exact Hep. }
    destruct Hstep as (bad1 & -> & Hnil1). cbn [rbind].
    destruct (IH bad1 Hall) as (bad' & Hfold & Hnil).
    exists bad'. split; [exact Hfold|]. rewrite Hnil, Hnil1, Forall_app. tauto.
Qed.

(** X6. The param_locations rule raises exactly when some object-shaped
    param has a list or an object as [location]; the registry plays no part
    in this.  Then it raises TypeError and appends nothing.  Otherwise it
    returns, and when the checklist defines impl.params.location.allowed it
    appends exactly one result, which passes if and only if the [location]
    of every object-shaped param is one of the strings path, query, body. *)
Theorem param_locations_result (self : Validator) (rs : list CheckResult) :
  (doc_locations_hashable self = false ->
   _check_param_locations self rs = (Raise TypeError, rs))
  /\ (doc_locations_hashable self = true ->
      defined self "impl.params.location.allowed" = false ->
      _check_param_locations self rs = (Ok tt, rs))
  /\ (doc_locations_hashable self = true ->
      defined self "impl.params.location.allowed" = true ->
      exists ok msg,
        _check_param_locations self rs
        = (Ok tt, rs ++ [emitted self "impl.params.location.allowed" ok msg])
        /\ (ok = true <-> Forall (fun pd => location_allowed pd = true) (doc_params self))).
Proof.
  unfold _check_param_locations. cbn zeta. unfold bind, lift.
  split; [|split].
  - intros Hh.
    rewrite (foldM_raises _ (params_all location_hashable) TypeError (endpoints_of self));
      [reflexivity| | |exact Hh].
    + intros s x _ Hx. destruct (locations_loop [x] s) as (bad' & Hfold & _).
      * cbn [forallb]. rewrite Hx. reflexivity.
      * cbn [foldM] in Hfold. destruct (locations_step s x) as [s'|e]; [eauto|discriminate Hfold].
    + intros s x _ Hx.
      destruct x as [| | | | |e]; cbn [params_all] in Hx; try discriminate Hx.
      cbn [locations_step].
      destruct (Py.get_or "params" (JList []) e) as [| | | |params|]; try discriminate Hx.
      apply (foldM_raises _ location_hashable TypeError params); [| |exact Hx].
      -- intros s1 p _ Hp. rewrite (location_step_returns' _ _ _ Hp). eauto.
      -- intros s1 p _ Hp. apply location_step_raises. exact Hp.
  - intros Hh Hdef. destruct (locations_loop (endpoints_of self) [] Hh) as (bad & -> & _).
    rewrite Hdef. reflexivity.
  - intros Hh Hdef. destruct (locations_loop (endpoints_of self) [] Hh) as (bad & -> & Hnil).
    rewrite Hdef. eexists _, _. split; [apply emit_appends|].
    rewrite Nat.eqb_eq, length_zero_iff_nil, Hnil. unfold doc_params. tauto.
Qed.

(** The method is "get", not "GET": the result fails. *)
Lemma method_values_result_witness :
  exists msg,
    _check_method_values
      (mkValidator lowercase_method_doc [] (only_defs "impl.endpoint.method.allowed")) []
    = (Ok tt, [mkCheckResult "impl.endpoint.method.allowed" (JStr "MUST") false msg]).
Proof.
  destruct (method_values_result
              (mkValidator lowercase_method_doc [] (only_defs "impl.endpoint.method.allowed"))
              [] eq_refl) as (ok & msg & Hrun & Hok).
  exists msg. rewrite Hrun. destruct ok; [|reflexivity].
  pose proof (proj1 Hok eq_refl) as H. apply Forall_cons in H. destruct H as [H _].
  discriminate H.
Defined.

(** A param located in the header: the result fails. *)
Lemma param_locations_result_witness :
  exists msg,
    _check_param_locations
      (mkValidator header_param_doc [] (only_defs "impl.params.location.allowed")) []
    = (Ok tt, [mkCheckResult "impl.params.location.allowed" (JStr "MUST") false msg]).
Proof.
  destruct (param_locations_result
              (mkValidator header_param_doc [] (only_defs "impl.params.location.allowed")) [])
    as (_ & _ & Hdef).
  destruct (Hdef eq_refl eq_refl) as (ok & msg & Hrun & Hok).
  exists msg. rewrite Hrun. destruct ok; [|reflexivity].
  pose proof (proj1 Hok eq_refl) as H. apply Forall_cons in H. destruct H as [H _].
  discriminate H.
Defined.

(** ** The two presence rules *)

Lemma missing_key_loop key endpoints : forall missing,
  fold_left (missing_key_step key) endpoints missing
  = missing ++ names_missing key endpoints.
Proof.
  induction endpoints as [|ep endpoints IH]; intros missing.
  - cbn. rewrite app_nil_r. reflexivity.
  - cbn [fold_left names_missing flat_map]. fold (names_missing key endpoints).
    rewrite IH. destruct ep as [| | | | |e]; cbn [missing_key_step app]; try reflexivity.
    destruct (Py.contains key e); cbn [negb app]; [reflexivity|].
    rewrite <- app_assoc. reflexivity.
Qed.

Lemma names_missing_nil key endpoints :
  names_missing key endpoints = []
  <-> Forall (fun e => Py.contains key e = true)
        (flat_map (fun ep => match ep with JObj e => [e] | _ => [] end) endpoints).
Proof.
  induction endpoints as [|ep endpoints IH]; [cbn; split; [constructor | reflexivity]|].
  cbn [names_missing flat_map]. fold (names_missing key endpoints).
  destruct ep as [| | | | |e]; cbn [app]; try exact IH.
  rewrite Forall_cons, <- IH. destruct (Py.contains key e); cbn [app].
  - tauto.
  - split; [discriminate | intros [H _]; discriminate H].
Qed.

(** X7. The auth_required_presence and response_content_type rules never
    raise and always append exactly one result each.  The result passes if
    and only if every object-shaped endpoint contains the key
    [auth_required] (respectively [response_content_type]), whatever its
    value; on failure the message lists, in document order, the [name] of
    each endpoint that lacks the key, or <unknown> for an endpoint without
    a name. *)
Theorem presence_rules_result (self : Validator) (rs : list CheckResult) :
  (exists ok msg,
     _check_auth_required_presence self rs
     = (Ok tt, rs ++ [emitted self "impl.endpoint.auth_required_supported" ok msg])
     /\ (ok = true
         <-> Forall (fun e => Py.contains "auth_required" e = true) (object_endpoints self))
     /\ (ok = false ->
         msg = "endpoints missing auth_required: "
               +:+ Py.repr (JList (names_missing "auth_required" (endpoints_of self)))))
  /\ (exists ok msg,
     _check_response_content_type_support self rs
     = (Ok tt, rs ++ [emitted self "impl.endpoint.response_content_type_supported" ok msg])
     /\ (ok = true
         <-> Forall (fun e => Py.contains "response_content_type" e = true)
               (object_endpoints self))
     /\ (ok = false ->
         msg = "endpoints missing response_content_type: "
               +:+ Py.repr (JList (names_missing "response_content_type" (endpoints_of self))))).
Proof.
  unfold _check_auth_required_presence, _check_response_content_type_support.
  cbn zeta. rewrite !missing_key_loop. cbn [app]. unfold object_endpoints.
  split; eexists _, _; (split; [apply emit_appends|]); split.
  - rewrite Nat.eqb_eq, length_zero_iff_nil. apply names_missing_nil.
  - intros ->. reflexivity.
  - rewrite Nat.eqb_eq, length_zero_iff_nil. apply names_missing_nil.
  - intros ->. reflexivity.
Qed.

(** ** The auth_docs_requirement and agent_rules rules *)

(** X8. The auth_docs_requirement rule never raises and never fails: it
    appends nothing when the checklist does not define
    impl.auth_docs.required_for_protected, and otherwise exactly one
    passing result, whose message says that the documentation is required
    exactly when [auth] is an object whose [type] is a string other than
    none, and that the requirement is not triggered otherwise. *)
Theorem auth_docs_requirement_result (self : Validator) (rs : list CheckResult) :
  let id := "impl.auth_docs.required_for_protected"%string in
  _check_auth_docs_requirement self rs
  = (Ok tt,
     if defined self id then
       rs ++ [emitted self id true
                (if protected_expected (doc self)
                 then "requires /ai-docs/auth for protected APIs (runtime endpoint verification out of scope for static document validation)"%string
                 else "auth.type is none or missing; /ai-docs/auth requirement not triggered"%string)]
     else rs).
Proof.
  cbn zeta. unfold _check_auth_docs_requirement, protected_expected. cbn zeta.
  destruct (defined self "impl.auth_docs.required_for_protected"); cbn [negb];
    [|reflexivity].
  destruct (Py.get "auth" (doc self)) as [| | | | |a]; try apply emit_appends.
  destruct (Py.get "type" a) as [| | |t| |]; try apply emit_appends.
  destruct (negb (String.eqb t "none")); apply emit_appends.
Qed.

(** X9. The agent_rules rule never raises and always appends exactly one
    result.  It passes when [agent_rules] is absent or null, and otherwise
    if and only if [agent_rules] is a sequence whose every item is a string
    that is non-empty after trimming whitespace; the empty sequence
    passes. *)
Theorem agent_rules_result (self : Validator) (rs : list CheckResult) :
  exists ok msg,
    _check_agent_rules_consistent_shape self rs
    = (Ok tt, rs ++ [emitted self "impl.agent_rules.consistent" ok msg])
    /\ (ok = true <->
        Py.get "agent_rules" (doc self) = JNull
        \/ exists items, Py.get "agent_rules" (doc self) = JList items
                         /\ Forall nonblank_string items).
Proof.
  unfold _check_agent_rules_consistent_shape.
  destruct (Py.get "agent_rules" (doc self)) as [| | | |items|] eqn:Hrules;
    eexists _, _; (split; [apply emit_appends|]);
    try (split; [discriminate | intros [H | (items & H & _)]; discriminate H]).
  - split; [intros _; left; reflexivity | reflexivity].
  - rewrite forallb_forall. split.
    + intros H. right. exists items. split; [reflexivity|].
      apply List.Forall_forall. intros x Hx. apply nonblank_string_dec. apply H. exact Hx.
    + intros [H | (items' & [= <-] & H)]; [discriminate H|].
      intros x Hx. apply nonblank_string_dec.
      rewrite List.Forall_forall in H. apply H. exact Hx.
Qed.

(** ** Where [run] stops when it raises *)

Lemma params_uniqueness_raises self rs :
  doc_hashable self = false ->
  _check_params_uniqueness self rs = (Raise TypeError, rs).
Proof.
  intros Hh. unfold _check_params_uniqueness. cbn zeta. unfold bind, lift.
  rewrite (foldM_raises _ endpoint_hashable TypeError (endpoints_of self));
    [reflexivity| | |exact Hh].
  - intros s x _ Hx. apply params_unique_step_returns. exact Hx.
  - intros s x _ Hx. apply params_unique_step_raises. exact Hx.
Qed.

(** X12. [run] raises exactly when some object-shaped param has a list or an
    object as [name] or [location].  The exception is then the TypeError of
    the params_uniqueness rule: the results hold the three results of the
    first two rules and nothing of the eight rules that follow. *)
Theorem run_raises_iff (self : Validator) (rs : list CheckResult) :
  (fst (run self rs) = Ok tt <-> doc_hashable self = true)
  /\ (doc_hashable self = false ->
      exists ok1 msg1 ok2 msg2 ok3 msg3,
        run self rs
        = (Raise TypeError,
           rs ++ [emitted self "impl.top_level.required_fields" ok1 msg1;
                  emitted self "impl.endpoint_name.unique" ok2 msg2;
                  emitted self "impl.method_path.unique" ok3 msg3])).
Proof.
  assert (Hraise : doc_hashable self = false ->
      exists ok1 msg1 ok2 msg2 ok3 msg3,
        run self rs
        = (Raise TypeError,
           rs ++ [emitted self "impl.top_level.required_fields" ok1 msg1;
                  emitted self "impl.endpoint_name.unique" ok2 msg2;
                  emitted self "impl.method_path.unique" ok3 msg3])).
  { intros Hh. unfold run.
    unfold _check_top_level_required_fields, _check_endpoint_uniqueness. cbn zeta.
    unfold bind at 1. rewrite emit_appends.
    unfold bind at 1. unfold bind at 1. rewrite emit_appends, emit_appends.
    unfold bind at 1. rewrite (params_uniqueness_raises self _ Hh).
    eexists _, _, _, _, _, _. rewrite <- !app_assoc. reflexivity. }
  split; [|exact Hraise].
  destruct (doc_hashable self) eqn:Hh.
  - split; [reflexivity|]. intros _. apply hashing_rules_return. exact Hh.
  - destruct (Hraise eq_refl) as (ok1 & msg1 & ok2 & msg2 & ok3 & msg3 & ->).
    cbn [fst]. split; discriminate.
Qed.

(** ** Items of [endpoints] that are not objects *)

Lemma fold_left_skip {S A} (step : S -> A -> S) (keep : A -> bool) (l : list A) :
  (forall a x, keep x = false -> step a x = a) ->
  forall a, fold_left step (List.filter keep l) a = fold_left step l a.
Proof.
  intros Hskip. induction l as [|x l IH]; intros a; [reflexivity|].
  cbn [List.filter fold_left]. destruct (keep x) eqn:Hx.
  - cbn [fold_left]. apply IH.
  - rewrite (Hskip a x Hx). apply IH.
Qed.

Lemma foldM_skip {S A} (body : S -> A -> result S) (keep : A -> bool) (l : list A) :
  (forall a x, keep x = false -> body a x = Ok a) ->
  forall a, foldM body (List.filter keep l) a = foldM body l a.
Proof.
  intros Hskip. induction l as [|x l IH]; intros a; [reflexivity|].
  cbn [List.filter foldM]. destruct (keep x) eqn:Hx.
  - cbn [foldM]. destruct (body a x); [apply IH | reflexivity].
  - rewrite (Hskip a x Hx). cbn [rbind]. apply IH.
Qed.

Ltac skip_non_object :=
  intros ? x Hx; destruct x; try discriminate Hx; reflexivity.

(** X13. The seven per-endpoint rules ignore every item of [endpoints] that
    is not an object: on a document whose endpoint list is that of another
    with such items removed, with the same registry, each rule gives the
    same outcome, results and messages. *)
Theorem non_object_endpoints_ignored (self self' : Validator) (rs : list CheckResult) :
  endpoints_of self' = List.filter Py.is_dict (endpoints_of self) ->
  check_defs self' = check_defs self ->
  _check_endpoint_uniqueness self' rs = _check_endpoint_uniqueness self rs
  /\ _check_params_uniqueness self' rs = _check_params_uniqueness self rs
  /\ _check_method_values self' rs = _check_method_values self rs
  /\ _check_param_locations self' rs = _check_param_locations self rs
  /\ _check_auth_required_presence self' rs = _check_auth_required_presence self rs
  /\ _check_response_content_type_support self' rs
     = _check_response_content_type_support self rs
  /\ _check_param_constraints_published self' rs
     = _check_param_constraints_published self rs.
Proof.
  intros He Hdefs.
  unfold _check_endpoint_uniqueness, _check_params_uniqueness, _check_method_values,
    _check_param_locations, _check_auth_required_presence,
    _check_response_content_type_support, _check_param_constraints_published.
  cbn zeta. rewrite He.
  rewrite (fold_left_skip uniqueness_step Py.is_dict) by skip_non_object.
  rewrite (foldM_skip params_unique_step Py.is_dict) by skip_non_object.
  rewrite (fold_left_skip method_step Py.is_dict) by skip_non_object.
  rewrite (foldM_skip locations_step Py.is_dict) by skip_non_object.
  rewrite !(fold_left_skip (missing_key_step _) Py.is_dict) by skip_non_object.
  rewrite (fold_left_skip constraints_step Py.is_dict) by skip_non_object.
  unfold bind, lift, defined, _emit. rewrite Hdefs.
  repeat match goal with |- _ /\ _ => split end; reflexivity.
Qed.

(** Two items that are not objects around the endpoint of the complete
    document. *)
Lemma non_object_endpoints_ignored_witness :
  _check_method_values
    (mkValidator complete_doc [] (only_defs "impl.endpoint.method.allowed")) []
  = _check_method_values
      (mkValidator padded_endpoints_doc [] (only_defs "impl.endpoint.method.allowed")) []
  /\ _check_param_constraints_published
       (mkValidator complete_doc [] (only_defs "impl.endpoint.method.allowed")) []
     = _check_param_constraints_published
         (mkValidator padded_endpoints_doc [] (only_defs "impl.endpoint.method.allowed")) [].
Proof.
  destruct (non_object_endpoints_ignored
              (mkValidator padded_endpoints_doc [] (only_defs "impl.endpoint.method.allowed"))
              (mkValidator complete_doc [] (only_defs "impl.endpoint.method.allowed")) [])
    as (_ & _ & Hm & _ & _ & _ & Hc).
  - reflexivity.
  - reflexivity.
  - split; [exact Hm | exact Hc].
Defined.

(** ** The report and the exit status *)











(** X15. When [main] returns, its status is 0 or 1; status 0 comes only with
    the COMPLIANT line, and the NOT COMPLIANT line only with status 1.
    Without --strict-should the status is 0 exactly when the line is
    COMPLIANT; with it, status 1 beside a COMPLIANT line means that a
    result of level SHOULD failed. *)
Theorem main_status_and_report (aiif_doc checklist_doc : dict) (strict : bool)
    (out : list string) (status : Z) :
  main aiif_doc checklist_doc strict = Ok (out, status) ->
  (status = 0%Z \/ status = 1%Z)
  /\ (status = 0%Z -> last out = Some COMPLIANT)
  /\ (last out = Some NOT_COMPLIANT -> status = 1%Z)
  /\ (strict = false -> (status = 0%Z <-> last out = Some COMPLIANT))
  /\ (status = 1%Z -> last out = Some COMPLIANT ->
      strict = true
      /\ 0 < count_failures "SHOULD" (snd (run (validator_of aiif_doc checklist_doc) []))).
Proof.
  unfold main, validator_of. destruct (__init__ aiif_doc checklist_doc) as [v|e];
    cbn [rbind]; [|discriminate].
  destruct (run v []) as [[[]|e] results]; [|discriminate].
  intros [= <- <-]. rewrite last_print_report. unfold exit_status. cbn [snd].
  assert (Hne : COMPLIANT <> NOT_COMPLIANT) by discriminate.
  assert (Hne' : Some NOT_COMPLIANT <> Some COMPLIANT) by (intros [= H]; auto).
  assert (Hne'' : Some COMPLIANT <> Some NOT_COMPLIANT) by (intros [= H]; auto).
  destruct (count_failures "MUST" results) as [|m]; cbn [Nat.ltb Nat.leb Nat.eqb];
    [destruct strict; cbn [andb];
     [destruct (count_failures "SHOULD" results) as [|s]; cbn [Nat.ltb Nat.leb]|]|];
    repeat match goal with |- _ /\ _ => split end; intros;
    try tauto; try discriminate; try contradiction; try lia;
    try (split; intros; first [discriminate | contradiction | reflexivity | lia]).
Qed.

(** The empty document against a checklist that puts the first rule at
    level SHOULD, under --strict-should: status 1 beside COMPLIANT. *)
Lemma main_status_and_report_witness :
  exists out,
    main empty_doc should_checklist true = Ok (out, 1%Z)
    /\ last out = Some COMPLIANT
    /\ 0 < count_failures "SHOULD" (snd (run (validator_of empty_doc should_checklist) [])).
Proof.
  eexists. split; [vm_compute; reflexivity|].
  split; [vm_compute; reflexivity|].
  eapply (main_status_and_report empty_doc should_checklist true).
  - vm_compute. reflexivity.
  - reflexivity.
  - vm_compute. reflexivity.
Defined.

(** ** The outcomes of [_index_checks] *)

Lemma index_step_returns acc item :
  Py.is_dict item = true -> exists acc', index_step acc item = Ok acc'.
Proof.
  destruct item as [| | | | |d]; try discriminate. intros _.
  rewrite index_step_entry. eauto.
Qed.

Lemma index_step_raises acc item :
  Py.is_dict item = false -> index_step acc item = Raise AttributeError.
Proof. destruct item; try reflexivity. discriminate. Qed.

Lemma index_loop_raises checks acc :
  forallb Py.is_dict checks = false -> foldM index_step checks acc = Raise AttributeError.
Proof.
  intros H. apply (foldM_raises _ Py.is_dict AttributeError checks); [| |exact H].
  - intros s x _ Hx. apply index_step_returns. exact Hx.
  - intros s x _ Hx. apply index_step_raises. exact Hx.
Qed.

Lemma forallb_is_entry checks : forallb Py.is_dict checks = true <-> Forall is_entry checks.
Proof.
  rewrite forallb_forall, List.Forall_forall. reflexivity.
Qed.

(** X16. What [_index_checks] does with the value under [checks].  Without
    the key the registry is empty.  A sequence gives a registry when all
    its items are objects and AttributeError as soon as one is not.  A
    string or an object is iterated too: AttributeError unless it is empty,
    in which case the registry is empty.  Null, a boolean or a number
    cannot be iterated: TypeError. *)
Theorem index_checks_outcomes (checklist : dict) :
  match Py.lookup "checks" checklist with
  | None => _index_checks checklist = Ok ∅
  | Some (JList checks) =>
      (Forall is_entry checks <-> exists defs, _index_checks checklist = Ok defs)
      /\ (~ Forall is_entry checks <-> _index_checks checklist = Raise AttributeError)
  | Some (JStr s) =>
      _index_checks checklist
      = if Py.is_empty s then Ok ∅ else Raise AttributeError
  | Some (JObj d) =>
      _index_checks checklist
      = if is_nil d then Ok ∅ else Raise AttributeError
  | Some JNull | Some (JBool _) | Some (JInt _) =>
      _index_checks checklist = Raise TypeError
  end.
Proof.
  unfold _index_checks, Py.get_or.
  destruct (Py.lookup "checks" checklist) as [[| | |s|checks|d]|]; cbn [Py.iter rbind];
    try reflexivity.
  - destruct s; reflexivity.
  - destruct (forallb Py.is_dict checks) eqn:Hall.
    + pose proof (proj1 (forallb_is_entry checks) Hall) as HF.
      destruct (index_loop checks ∅ HF) as (defs & Hfold & _). rewrite Hfold.
      split; split; try tauto; try discriminate; eauto.
    + rewrite (index_loop_raises checks ∅ Hall).
      assert (HF : ~ Forall is_entry checks).
      { intros HF. apply forallb_is_entry in HF. congruence. }
      split; split; try tauto. intros (defs & H). discriminate H.
  - destruct d as [|[k v] d]; reflexivity.
Qed.

Lemma last_entry_in id checks d :
  last_entry id checks = Some d -> In (JObj d) checks /\ Py.get "id" d = JStr id.
Proof.
  induction checks as [|item rest IH]; [discriminate|].
  cbn [last_entry]. destruct (last_entry id rest) as [d'|].
  - intros [= ->]. destruct (IH eq_refl) as [Hin Hid]. split; [right; exact Hin | exact Hid].
  - destruct item as [| | | | |d0]; try discriminate.
    destruct (has_id id (JObj d0)) eqn:Hhas; [|discriminate].
    intros [= ->]. split; [left; reflexivity|].
    unfold has_id in Hhas. destruct (Py.get "id" d) as [| | |i| |]; try discriminate Hhas.
    apply String.eqb_eq in Hhas. subst i. reflexivity.
Qed.

Lemma last_entry_none id checks :
  last_entry id checks = None -> Forall (fun item => has_id id item = false) checks.
Proof.
  induction checks as [|item rest IH]; [constructor|].
  cbn [last_entry]. destruct (last_entry id rest) as [d'|]; [discriminate|].
  intros H. constructor; [|apply IH; reflexivity].
  destruct item as [| | | | |d0]; try reflexivity.
  destruct (has_id id (JObj d0)); [discriminate H | reflexivity].
Qed.

(** X17. Every entry of the registry comes from the checklist under its own
    id: when [_index_checks] returns a registry for a [checks] sequence,
    an id is defined exactly when some item of the sequence carries it as a
    string [id], and the entry stored under an id is an item of the
    sequence whose [id] is that id. *)
Theorem registry_entries (checklist : dict) (checks : list json) (defs : gmap string dict) :
  Py.lookup "checks" checklist = Some (JList checks) ->
  _index_checks checklist = Ok defs ->
  forall id,
    (is_Some (defs !! id) <-> Exists (fun item => has_id id item = true) checks)
    /\ (forall entry, defs !! id = Some entry ->
          In (JObj entry) checks /\ Py.get "id" entry = JStr id).
Proof.
  intros Hchecks Hidx id.
  unfold _index_checks, Py.get_or in Hidx. rewrite Hchecks in Hidx. cbn [Py.iter rbind] in Hidx.
  destruct (forallb Py.is_dict checks) eqn:Hall;
    [|rewrite (index_loop_raises checks ∅ Hall) in Hidx; discriminate Hidx].
  apply forallb_is_entry in Hall.
  destruct (index_loop checks ∅ Hall) as (defs' & Hfold & Hlook).
  rewrite Hfold in Hidx. injection Hidx as ->.
  assert (Hlast : defs !! id = last_entry id checks).
  { rewrite Hlook. destruct (last_entry id checks); [reflexivity | apply lookup_empty]. }
  rewrite Hlast. split.
  - split.
    + intros [d Hd]. destruct (last_entry_in _ _ _ Hd) as [Hin Hid].
      apply List.Exists_exists. exists (JObj d). split; [exact Hin|].
      unfold has_id. rewrite Hid. apply String.eqb_refl.
    + intros Hex. destruct (last_entry id checks) as [d|] eqn:Hd; [eauto|].
      exfalso. apply last_entry_none in Hd.
      apply List.Exists_exists in Hex. destruct Hex as (item & Hin & Hhas).
      rewrite List.Forall_forall in Hd. rewrite (Hd item Hin) in Hhas. discriminate Hhas.
  - intros entry Hentry. apply last_entry_in. exact Hentry.
Qed.

(** The redefining checklist: the id is defined, the entry stored is one of
    its items. *)
Lemma registry_entries_witness :
  _index_checks redefining_checklist = Ok redefining_defs
  /\ is_Some (redefining_defs !! "impl.agent_rules.consistent"%string)
  /\ ~ is_Some (redefining_defs !! "impl.endpoint.method.allowed"%string).
Proof.
  assert (Hidx : _index_checks redefining_checklist = Ok redefining_defs)
    by (vm_compute; reflexivity).
  split; [exact Hidx|].
  pose proof (registry_entries redefining_checklist redefining_checks redefining_defs
                eq_refl Hidx) as H.
  split.
  - apply H. constructor. reflexivity.
  - intros Hs. apply H in Hs. apply List.Exists_exists in Hs.
    destruct Hs as (item & Hin & Hhas).
    repeat (destruct Hin as [<- | Hin]; [discriminate Hhas|]). destruct Hin.
Defined.

(** ** When [main] returns *)




Lemma main_status_range aiif_doc checklist_doc strict out status :
  main aiif_doc checklist_doc strict = Ok (out, status) -> status = 0%Z \/ status = 1%Z.
Proof.
  unfold main. destruct (__init__ aiif_doc checklist_doc) as [v|e]; cbn [rbind];
    [|discriminate].
  destruct (run v []) as [[[]|e] results]; [|discriminate].
  intros [= _ <-]. unfold exit_status.
  destruct (0 <? count_failures "MUST" results); [tauto|].
  destruct (strict && (0 <? count_failures "SHOULD" results)); tauto.
Qed.

(** On a document that is a dict the verdict and message are those the
    rule emits. *)
Lemma top_level_verdict_object self :
  exists ok msg,
    top_level_verdict (JObj (doc self)) = Ok (ok, msg)
    /\ forall rs,
         _check_top_level_required_fields self rs
         = (Ok tt, rs ++ [emitted self "impl.top_level.required_fields" ok msg]).
Proof.
  unfold top_level_verdict, _check_top_level_required_fields. cbn zeta.
  cbn [missing_keys str_in_value get_method rbind List.filter].
  destruct (Py.contains "aiif_version" (doc self)),
    (Py.contains "info" (doc self)),
    (Py.contains "endpoints" (doc self)); cbn [negb];
    eexists _, _; (split; [reflexivity|]); intros rs; apply emit_appends.
Qed.

(** On two dicts the run is that of [main]. *)
Lemma main_loaded_objects d cl strict :
  main_loaded (JObj d) (JObj cl) strict = main d cl strict.
Proof.
  unfold main_loaded. cbn [get_method rbind].
  destruct (_index_checks cl) as [defs|e] eqn:Hidx; cbn [rbind].
  - destruct (top_level_verdict_object (mkValidator d cl defs)) as (ok & msg & Hv & _).
    cbn [doc] in Hv. rewrite Hv. reflexivity.
  - unfold main, __init__. rewrite Hidx. reflexivity.
Qed.

(** A document that is no dict stops the first rule. *)
Lemma top_level_verdict_raises aiif_doc :
  Py.is_dict aiif_doc = false ->
  top_level_verdict aiif_doc
  = Raise (if Py.is_list aiif_doc || Py.is_str aiif_doc
           then AttributeError else TypeError).
Proof.
  intros Hnd. unfold top_level_verdict.
  destruct aiif_doc; try discriminate Hnd;
    cbn [missing_keys str_in_value get_method rbind Py.is_list Py.is_str orb];
    reflexivity.
Qed.

Lemma main_loaded_status_range aiif_doc checklist_doc strict out status :
  main_loaded aiif_doc checklist_doc strict = Ok (out, status) ->
  (status = 0%Z \/ status = 1%Z)
  /\ Py.is_dict aiif_doc = true /\ Py.is_dict checklist_doc = true.
Proof.
  destruct checklist_doc as [| | | | |cl]; try discriminate.
  destruct (Py.is_dict aiif_doc) eqn:Hd.
  - destruct aiif_doc as [| | | | |d]; try discriminate Hd.
    rewrite main_loaded_objects. intros H.
    split; [|split; reflexivity]. exact (main_status_range _ _ _ _ _ H).
  - unfold main_loaded. cbn [get_method rbind].
    destruct (_index_checks cl); cbn [rbind]; [|discriminate].
    rewrite (top_level_verdict_raises _ Hd). discriminate.
Qed.




(** X20. [main] can only return a report when both loaded values are JSON
    objects.  A checklist of any other shape makes [Validator(...)] raise
    AttributeError at [checklist.get].  Once the registry is built, a
    document of any other shape stops the first rule: null, a boolean or a
    number raises TypeError at [k not in self.doc], and a sequence or a
    string, for which that test is defined, raises AttributeError at
    [self.doc.get].  On two objects [main] validates them. *)
Theorem main_loaded_needs_objects (aiif_doc checklist_doc : json) (strict : bool) :
  ((exists out status, main_loaded aiif_doc checklist_doc strict = Ok (out, status))
   -> Py.is_dict aiif_doc = true /\ Py.is_dict checklist_doc = true)
  /\ (Py.is_dict checklist_doc = false ->
      main_loaded aiif_doc checklist_doc strict = Raise AttributeError)
  /\ (forall cl e, checklist_doc = JObj cl -> _index_checks cl = Raise e ->
      main_loaded aiif_doc checklist_doc strict = Raise e)
  /\ (forall cl defs, checklist_doc = JObj cl -> _index_checks cl = Ok defs ->
      Py.is_dict aiif_doc = false ->
      top_level_verdict aiif_doc
      = Raise (if Py.is_list aiif_doc || Py.is_str aiif_doc
               then AttributeError else TypeError)
      /\ main_loaded aiif_doc checklist_doc strict
         = Raise (if Py.is_list aiif_doc || Py.is_str aiif_doc
                  then AttributeError else TypeError))
  /\ (forall d cl, aiif_doc = JObj d -> checklist_doc = JObj cl ->
      main_loaded aiif_doc checklist_doc strict = main d cl strict).
Proof.
  split; [|split; [|split; [|split]]].
  - intros (out & status & H). apply (main_loaded_status_range _ _ _ _ _ H).
  - destruct checklist_doc; try reflexivity. discriminate.
  - intros cl e -> Hidx. unfold main_loaded. cbn [get_method rbind].
    rewrite Hidx. reflexivity.
  - intros cl defs -> Hidx Hnd.
    split; [exact (top_level_verdict_raises _ Hnd)|].
    unfold main_loaded. cbn [get_method rbind]. rewrite Hidx. cbn [rbind].
    rewrite (top_level_verdict_raises _ Hnd). reflexivity.
  - intros d cl -> ->. apply main_loaded_objects.
Qed.

(** A JSON array as the checklist, and as the document next to the
    all-MUST checklist. *)
Lemma main_loaded_needs_objects_witness :
  main_cli sample_files "api.json" "array.json" false = Raises AttributeError
  /\ top_level_verdict (JList []) = Raise AttributeError.
Proof.
  split.
  - destruct (main_loaded_needs_objects (JObj complete_doc) (JList []) false)
      as (_ & H & _).
    change (main_cli sample_files "api.json" "array.json" false)
      with (ending_of (main_loaded (JObj complete_doc) (JList []) false)).
    rewrite (H eq_refl). reflexivity.
  - destruct (main_loaded_needs_objects (JList []) (JObj all_must_checklist) false)
      as (_ & _ & _ & H & _).
    destruct (index_loop
                (map (fun id => JObj [("id", JStr id); ("level", JStr "MUST")]%string) all_ids)
                ∅) as (defs & Hdefs & _).
    { unfold all_ids. cbn [map]. repeat constructor. }
    apply (H all_must_checklist defs eq_refl); [exact Hdefs | reflexivity].
Defined.

(** ** What the checklist can change *)

(** X21. The checklist decides only the level of each result and whether
    the three conditional rules emit: two validators over the same document
    whose registries define the same ones among the three conditional ids
    raise alike and produce results with the same check ids, verdicts and
    messages, in the same order. *)
Theorem checklist_changes_levels_only (d cl cl' : dict) (defs defs' : gmap string dict) :
  let self := mkValidator d cl defs in
  let self' := mkValidator d cl' defs' in
  (forall id, In id conditional_ids -> defined self id = defined self' id) ->
  fst (run self []) = fst (run self' [])
  /\ map outcome (snd (run self [])) = map outcome (snd (run self' [])).
Proof.
  cbn zeta. intros Hdef.
  destruct (unconditional_rules_ignore_registry d cl cl' defs defs')
    as (H1 & H2 & H3 & H6 & H8 & H9 & H10 & H11).
  cbn zeta in H1, H2, H3, H6, H8, H9, H10, H11.
  assert (Hrun : same_outcomes (run (mkValidator d cl defs)) (run (mkValidator d cl' defs'))).
  { unfold run. repeat (apply same_outcomes_seq; [try assumption|]); try assumption.
    - unfold _check_method_values. cbn zeta.
      rewrite <- (Hdef "impl.endpoint.method.allowed"%string) by (cbn; tauto).
      unfold endpoints_of. cbn [doc].
      destruct (defined (mkValidator d cl defs) "impl.endpoint.method.allowed");
        [apply same_outcomes_emit | apply same_outcomes_ret].
    - unfold _check_param_locations. cbn zeta.
      rewrite <- (Hdef "impl.params.location.allowed"%string) by (cbn; tauto).
      unfold endpoints_of. cbn [doc].
      apply same_outcomes_bind. intros bad.
      destruct (defined (mkValidator d cl defs) "impl.params.location.allowed");
        [apply same_outcomes_emit | apply same_outcomes_ret].
    - unfold _check_auth_docs_requirement. cbn zeta.
      rewrite <- (Hdef "impl.auth_docs.required_for_protected"%string) by (cbn; tauto).
      cbn [doc].
      destruct (defined (mkValidator d cl defs) "impl.auth_docs.required_for_protected");
        cbn [negb]; [|apply same_outcomes_ret].
      match goal with |- context [if ?b then _ else _] => destruct b end;
        apply same_outcomes_emit. }
  apply Hrun. reflexivity.
Qed.

(** The complete document under the registry of the all-MUST checklist and
    under one that gives the three conditional ids level INFO. *)
Lemma checklist_changes_levels_only_witness :
  map outcome
    (snd (run (mkValidator complete_doc all_must_checklist
                 (validator_of complete_doc all_must_checklist).(check_defs)) []))
  = map outcome (snd (run (mkValidator complete_doc [] conditional_info_defs) [])).
Proof.
  apply (checklist_changes_levels_only complete_doc all_must_checklist []
           (validator_of complete_doc all_must_checklist).(check_defs)
           conditional_info_defs).
  intros id Hin. cbn in Hin.
  destruct Hin as [<- | [<- | [<- | []]]]; vm_compute; reflexivity.
Defined.
